(** * OCPay Node.js SDK: request validation and error classification

    A shallow embedding of [validators.ts], [client.ts], [exceptions.ts] and
    [ocpay-service.ts], and the properties of the validator and of the error
    classifier stated over it. *)

From Stdlib Require Import Ascii String.
From Stdlib Require Import List Bool Arith ZArith NArith QArith Lia.
Import ListNotations.
Local Open Scope nat_scope.
Local Open Scope list_scope.

(** ** JavaScript strings

    A JavaScript string is a sequence of UTF-16 code units; [length] counts
    code units.  String literals of the source are ASCII and are written with
    [js]. *)

Definition code_unit := N.
Definition jsstring := list code_unit.

Definition js (s : string) : jsstring :=
  map N_of_ascii (list_ascii_of_string s).

Fixpoint str_eqb (a b : jsstring) : bool :=
  match a, b with
  | [], [] => true
  | x :: a', y :: b' => N.eqb x y && str_eqb a' b'
  | _, _ => false
  end.

(** [String.prototype.startsWith]. *)
Fixpoint startsWith (s prefix : jsstring) : bool :=
  match prefix, s with
  | [], _ => true
  | p :: prefix', c :: s' => N.eqb c p && startsWith s' prefix'
  | _ :: _, [] => false
  end.

(** [String.prototype.includes]. *)
Fixpoint String_includes (s needle : jsstring) : bool :=
  startsWith s needle ||
  match s with
  | [] => false
  | _ :: s' => String_includes s' needle
  end.

(** [Array.prototype.includes] on an array of strings. *)
Definition Array_includes (xs : list jsstring) (x : jsstring) : bool :=
  existsb (str_eqb x) xs.

(** [Array.prototype.join] on an array of strings. *)
Fixpoint join (parts : list jsstring) (sep : jsstring) : jsstring :=
  match parts with
  | [] => []
  | [p] => p
  | p :: rest => p ++ sep ++ join rest sep
  end.

(** ECMAScript WhiteSpace and LineTerminator code points, the ones
    [String.prototype.trim] removes. *)
Definition isWhiteSpace (c : code_unit) : bool :=
  ((9 <=? c) && (c <=? 13) || (c =? 32) || (c =? 160) || (c =? 5760)
   || (8192 <=? c) && (c <=? 8202) || (c =? 8232) || (c =? 8233)
   || (c =? 8239) || (c =? 8287) || (c =? 12288) || (c =? 65279))%N.

Fixpoint trimStart (s : jsstring) : jsstring :=
  match s with
  | [] => []
  | c :: s' => if isWhiteSpace c then trimStart s' else s
  end.

Definition trimEnd (s : jsstring) : jsstring := rev (trimStart (rev s)).

(** [String.prototype.trim]. *)
Definition trim (s : jsstring) : jsstring := trimEnd (trimStart s).

(** An optional string property: [None] is [undefined] (the property is
    missing). *)
Definition truthy (v : option jsstring) : bool :=
  match v with
  | Some (_ :: _) => true
  | _ => false
  end.

(** The string held by a property that is known to be truthy. *)
Definition str (v : option jsstring) : jsstring :=
  match v with
  | Some s => s
  | None => []
  end.

(** ** JavaScript numbers

    The value a [number] denotes: a finite double is the rational it stands
    for, and the three values that are no rationals are kept apart. *)

Inductive number : Type :=
| Finite (q : Q)
| NaN
| Infinity (negative : bool).

Definition num (z : Z) : number := Finite (inject_Z z).

(** [Number.isInteger]. *)
Definition Number_isInteger (n : number) : bool :=
  match n with
  | Finite q => (Qnum q mod Zpos (Qden q) =? 0)%Z
  | _ => false
  end.

(** The relational operators [<] and [>]; every comparison with [NaN] is
    false. *)
Definition lt (a b : number) : bool :=
  match a, b with
  | Finite x, Finite y => negb (Qle_bool y x)
  | Finite _, Infinity negative => negb negative
  | Infinity negative, Finite _ => negative
  | Infinity n1, Infinity n2 => n1 && negb n2
  | _, _ => false
  end.

Definition gt (a b : number) : bool := lt b a.

(** ** Completions: a call returns or throws *)

Section Completion.

Variable E : Type.

Inductive completion (A : Type) : Type :=
| Return (a : A)
| Throw (e : E).

Definition bind {A B} (c : completion A) (k : A -> completion B)
  : completion B :=
  match c with
  | Return _ a => k a
  | Throw _ e => Throw B e
  end.

End Completion.

Arguments Return {E A} a.
Arguments Throw {E A} e.
Arguments bind {E A B} c k.

(** ** types.ts

    The members of the enum [FeeMode] are strings.  The interfaces declare
    [title] and [productInfo] as required and [feeMode] as a [FeeMode]; the
    validators test all of them for being missing or falsy, so here each is
    an optional string (or record), as at run time. *)

Module FeeMode.
Definition NO_FEE : jsstring := js "NO_FEE".
Definition SPLIT_FEE : jsstring := js "SPLIT_FEE".
Definition CUSTOMER_FEE : jsstring := js "CUSTOMER_FEE".
End FeeMode.

Record ProductInfo : Type := {
  title : option jsstring;
  amount : number;
  description : option jsstring
}.

Record CreateLinkRequest : Type := {
  productInfo : option ProductInfo;
  feeMode : option jsstring;
  successMessage : option jsstring;
  redirectUrl : option jsstring
}.

(** ** validators.ts

    The validators throw a plain [Error], which has a message and nothing
    else. *)

Record Error : Type := new_Error { Error_message : jsstring }.

Notation "'when' c 'throw' e ;; k" := (if c then Throw e else k)
  (at level 10, c at level 99, e at level 99, k at level 200,
   format "'[v' 'when'  c  'throw'  e  ;; '/' k ']'").
Notation "c ;; k" := (bind c (fun _ => k))
  (at level 100, right associativity).

Definition MSG_TITLE_REQUIRED := js "Product title is required".
Definition MSG_TITLE_TOO_LONG := js "Product title must not exceed 200 characters".
Definition MSG_AMOUNT_NOT_INTEGER := js "Amount must be a whole number (no decimals)".
Definition MSG_AMOUNT_TOO_SMALL := js "Amount must be at least 500 DZD".
Definition MSG_AMOUNT_TOO_LARGE := js "Amount must not exceed 500,000 DZD".
Definition MSG_DESCRIPTION_TOO_LONG :=
  js "Product description must not exceed 1000 characters".
Definition MSG_PRODUCT_INFO_REQUIRED := js "Product info is required".
Definition MSG_SUCCESS_MESSAGE_TOO_LONG :=
  js "Success message must not exceed 500 characters".
Definition MSG_REDIRECT_URL := js "Redirect URL must be a valid HTTP/HTTPS URL".

Definition validateProductInfo (productInfo : ProductInfo)
  : completion Error unit :=
  when negb (truthy (title productInfo))
       || (length (trim (str (title productInfo))) =? 0)
  throw new_Error MSG_TITLE_REQUIRED ;;
  when 200 <? length (str (title productInfo))
  throw new_Error MSG_TITLE_TOO_LONG ;;
  when negb (Number_isInteger (amount productInfo))
  throw new_Error MSG_AMOUNT_NOT_INTEGER ;;
  when lt (amount productInfo) (num 500)
  throw new_Error MSG_AMOUNT_TOO_SMALL ;;
  when gt (amount productInfo) (num 500000)
  throw new_Error MSG_AMOUNT_TOO_LARGE ;;
  when truthy (description productInfo)
       && (1000 <? length (str (description productInfo)))
  throw new_Error MSG_DESCRIPTION_TOO_LONG ;;
  Return tt.

Definition validFeeModes : list jsstring :=
  [FeeMode.NO_FEE; FeeMode.SPLIT_FEE; FeeMode.CUSTOMER_FEE].

Definition MSG_INVALID_FEE_MODE : jsstring :=
  js "Invalid fee mode. Must be one of: " ++ join validFeeModes (js ", ").

Definition validateFeeMode (feeMode : jsstring) : completion Error unit :=
  when negb (Array_includes validFeeModes feeMode)
  throw new_Error MSG_INVALID_FEE_MODE ;;
  Return tt.

Section Validators.

(** The platform's [URL] constructor: whether [new URL(url)] returns
    ([true]) or throws ([false]). *)
Variable URL_parses : jsstring -> bool.

Definition isValidUrl (url : jsstring) : bool :=
  if URL_parses url
  then startsWith url (js "http://") || startsWith url (js "https://")
  else false.

Definition validateCreateLinkRequest (request : CreateLinkRequest)
  : completion Error unit :=
  match productInfo request with
  | None => Throw (new_Error MSG_PRODUCT_INFO_REQUIRED)
  | Some info =>
      validateProductInfo info ;;
      (if truthy (feeMode request)
       then validateFeeMode (str (feeMode request))
       else Return tt) ;;
      when truthy (successMessage request)
           && (500 <? length (str (successMessage request)))
      throw new_Error MSG_SUCCESS_MESSAGE_TOO_LONG ;;
      when truthy (redirectUrl request)
           && negb (isValidUrl (str (redirectUrl request)))
      throw new_Error MSG_REDIRECT_URL ;;
      Return tt
  end.

End Validators.

(** ** The response envelope ([ApiResponse] of client.ts)

    A body is described by what its properties read as.  [T] is the type of
    what [data] reads as, [undefined] included.  The interface declares
    [success] a boolean; the body comes from the network, and the client tests
    it with [=== false], so the flag is kept as it may be at run time. *)

(** What the [success] property reads as: a boolean, or anything else
    ([undefined] when the property is missing, a number, a string, ...). *)
Inductive flag : Type :=
| Boolean (b : bool)
| NotBoolean.

(** [v === false]. *)
Definition isFalse (v : flag) : bool :=
  match v with
  | Boolean false => true
  | _ => false
  end.

Module Meta.
Record t : Type := {
  requestId : option jsstring;
  timestamp : option jsstring
}.
End Meta.

Module ApiResponse.
Record t (T : Type) : Type := {
  success : flag;
  data : T;
  message : option jsstring;
  meta : option Meta.t
}.
Arguments success {T} _.
Arguments data {T} _.
Arguments message {T} _.
Arguments meta {T} _.
End ApiResponse.

(** [v || fallback] on an optional string. *)
Definition or_else (v : option jsstring) (fallback : jsstring) : jsstring :=
  if truthy v then str v else fallback.

(** [v || fallback] on an optional status: [undefined] and [0] are falsy.
    A status is an integer, so it is held in [Z]. *)
Definition or_status (v : option Z) (fallback : Z) : Z :=
  match v with
  | Some n => if (n =? 0)%Z then fallback else n
  | None => fallback
  end.

(** ** exceptions.ts

    The class of an exception object is its [kind] (what [instanceof] and
    [name] tell apart); all classes share the fields of [OCPayException]. *)

Inductive ExceptionKind : Type :=
| ApiException
| ValidationException
| UnauthorizedException
| NotFoundException
| PaymentExpiredException.

Module OCPayException.
Record t (T : Type) : Type := {
  kind : ExceptionKind;
  message : jsstring;
  statusCode : option Z;
  requestId : option jsstring;
  errorData : option (ApiResponse.t T)
}.
Arguments kind {T} _.
Arguments message {T} _.
Arguments statusCode {T} _.
Arguments requestId {T} _.
Arguments errorData {T} _.

Definition getStatusCode {T} (e : t T) : option Z := statusCode e.
Definition getRequestId {T} (e : t T) : option jsstring := requestId e.
Definition getErrorData {T} (e : t T) : option (ApiResponse.t T) :=
  errorData e.
End OCPayException.

Section Exceptions.

Variable T : Type.

(** A default parameter value [statusCode: number = d]. *)
Definition default (d : Z) (statusCode : option Z) : option Z :=
  match statusCode with
  | Some n => Some n
  | None => Some d
  end.

Definition new_ApiException (message : jsstring) (statusCode : option Z)
    (requestId : option jsstring) (errorData : option (ApiResponse.t T))
  : OCPayException.t T :=
  {| OCPayException.kind := ApiException;
     OCPayException.message := message;
     OCPayException.statusCode := statusCode;
     OCPayException.requestId := requestId;
     OCPayException.errorData := errorData |}.

Definition new_ValidationException (message : jsstring)
    (statusCode : option Z) (requestId : option jsstring)
    (errorData : option (ApiResponse.t T)) : OCPayException.t T :=
  {| OCPayException.kind := ValidationException;
     OCPayException.message := message;
     OCPayException.statusCode := default 400 statusCode;
     OCPayException.requestId := requestId;
     OCPayException.errorData := errorData |}.

Definition new_UnauthorizedException (message : jsstring)
    (statusCode : option Z) (requestId : option jsstring)
    (errorData : option (ApiResponse.t T)) : OCPayException.t T :=
  {| OCPayException.kind := UnauthorizedException;
     OCPayException.message := message;
     OCPayException.statusCode := default 403 statusCode;
     OCPayException.requestId := requestId;
     OCPayException.errorData := errorData |}.

Definition new_NotFoundException (message : jsstring)
    (statusCode : option Z) (requestId : option jsstring)
    (errorData : option (ApiResponse.t T)) : OCPayException.t T :=
  {| OCPayException.kind := NotFoundException;
     OCPayException.message := message;
     OCPayException.statusCode := default 404 statusCode;
     OCPayException.requestId := requestId;
     OCPayException.errorData := errorData |}.

Definition new_PaymentExpiredException (message : jsstring)
    (statusCode : option Z) (requestId : option jsstring)
    (errorData : option (ApiResponse.t T)) : OCPayException.t T :=
  {| OCPayException.kind := PaymentExpiredException;
     OCPayException.message := message;
     OCPayException.statusCode := default 410 statusCode;
     OCPayException.requestId := requestId;
     OCPayException.errorData := errorData |}.

End Exceptions.

Arguments new_ApiException {T} message statusCode requestId errorData.
Arguments new_ValidationException {T} message statusCode requestId errorData.
Arguments new_UnauthorizedException {T} message statusCode requestId errorData.
Arguments new_NotFoundException {T} message statusCode requestId errorData.
Arguments new_PaymentExpiredException {T} message statusCode requestId errorData.

(** ** The HTTP transport (axios), as far as client.ts uses it *)

Module AxiosResponse.
Record t (D : Type) : Type := {
  status : Z;
  data : D
}.
Arguments status {D} _.
Arguments data {D} _.
End AxiosResponse.

Module AxiosError.
(** [response] is missing when no HTTP response was received; the body of
    an error response may be missing too. *)
Record t (T : Type) : Type := {
  response : option (AxiosResponse.t (option (ApiResponse.t T)));
  message : jsstring
}.
Arguments response {T} _.
Arguments message {T} _.
End AxiosError.

Inductive Method : Type := GET | POST.

Record HttpRequest : Type := {
  method : Method;
  url : jsstring;
  body : option CreateLinkRequest
}.

(** How a request settles: the promise is fulfilled with a response (a 2xx
    status) or rejected with an [AxiosError].  The body of a response of
    either sort is [None] when it is [null] or [undefined]. *)
Inductive Settled (T : Type) : Type :=
| Fulfilled (response : AxiosResponse.t (option (ApiResponse.t T)))
| Rejected (error : AxiosError.t T).
Arguments Fulfilled {T} response.
Arguments Rejected {T} error.

(** What a call of the SDK throws: the plain [Error] of the local checks,
    one of the API exceptions, or the [TypeError] of the run time for reading
    a property of [null] or [undefined]. *)
Inductive Thrown (T : Type) : Type :=
| PlainError (e : Error)
| OCPayError (e : OCPayException.t T)
| TypeError.
Arguments PlainError {T} e.
Arguments OCPayError {T} e.
Arguments TypeError {T}.

(** An asynchronous call of the SDK: the requests it handed to the
    transport, in order, and how it completed. *)
Definition Async (T A : Type) : Type :=
  (list HttpRequest * completion (Thrown T) A)%type.

Definition ret {T A} (a : A) : Async T A := ([], Return a).

Definition raise {T A} (e : Thrown T) : Async T A := ([], Throw e).

Definition await {T A B} (m : Async T A) (k : A -> Async T B) : Async T B :=
  match m with
  | (sent, Return a) => let (sent', c) := k a in (sent ++ sent', c)
  | (sent, Throw e) => (sent, Throw e)
  end.

Notation "x <- m ;;; k" := (await m (fun x => k))
  (at level 100, m at next level, right associativity).

(** ** client.ts *)

Section Client.

Variable T : Type.

(** The network behind the axios instance. *)
Variable network : HttpRequest -> Settled T.

(** [data.success] on a body that is [null] or [undefined] throws the
    [TypeError]; on every other body it is read and compared with [false]. *)
Definition handleResponse (data : option (ApiResponse.t T))
  : completion (Thrown T) (ApiResponse.t T) :=
  match data with
  | None => Throw TypeError
  | Some data =>
      if isFalse (ApiResponse.success data) then
        let message :=
          or_else (ApiResponse.message data) (js "API request failed") in
        let requestId :=
          match ApiResponse.meta data with
          | Some m => Meta.requestId m
          | None => None
          end in
        Throw (OCPayError
                 (new_ApiException message (Some 0%Z) requestId (Some data)))
      else Return data
  end.

Definition handleException (error : AxiosError.t T) : OCPayException.t T :=
  let response := AxiosError.response error in
  let statusCode := or_status (option_map AxiosResponse.status response) 0 in
  let data :=
    match response with
    | Some r => AxiosResponse.data r
    | None => None
    end in
  let requestId :=
    match data with
    | Some d =>
        match ApiResponse.meta d with
        | Some m => Meta.requestId m
        | None => None
        end
    | None => None
    end in
  let message :=
    or_else match data with
            | Some d => ApiResponse.message d
            | None => None
            end (AxiosError.message error) in
  if (statusCode =? 400)%Z then
    new_ValidationException message (Some statusCode) requestId data
  else if (statusCode =? 403)%Z then
    new_UnauthorizedException message (Some statusCode) requestId data
  else if (statusCode =? 404)%Z then
    new_NotFoundException message (Some statusCode) requestId data
  else if (statusCode =? 410)%Z then
    new_PaymentExpiredException message (Some statusCode) requestId data
  else
    new_ApiException message (Some statusCode) requestId data.

(** The axios instance with the response interceptor of the constructor:
    a rejection is rethrown as [handleException error]. *)
Definition httpClient (request : HttpRequest)
  : Async T (AxiosResponse.t (option (ApiResponse.t T))) :=
  ([request],
   match network request with
   | Fulfilled response => Return response
   | Rejected error => Throw (OCPayError (handleException error))
   end).

Definition Client_post (endpoint : jsstring) (data : CreateLinkRequest)
  : Async T (ApiResponse.t T) :=
  response <- httpClient
    {| method := POST; url := endpoint; body := Some data |} ;;;
  ([], handleResponse (AxiosResponse.data response)).

Definition Client_get (endpoint : jsstring) : Async T (ApiResponse.t T) :=
  response <- httpClient
    {| method := GET; url := endpoint; body := None |} ;;;
  ([], handleResponse (AxiosResponse.data response)).

End Client.

Arguments handleResponse {T} data.
Arguments handleException {T} error.
Arguments httpClient {T} network request.
Arguments Client_post {T} network endpoint data.
Arguments Client_get {T} network endpoint.

(** ** client.ts: the constructor

    A [Record<string, string>] is an object: its properties in insertion
    order, each key once.  Writing a property that exists replaces its value
    in place; spreading an object writes its properties one by one. *)

Definition object := list (jsstring * jsstring).

Fixpoint Object_get (o : object) (key : jsstring) : option jsstring :=
  match o with
  | [] => None
  | (k, v) :: o' => if str_eqb k key then Some v else Object_get o' key
  end.

Fixpoint Object_set (o : object) (key value : jsstring) : object :=
  match o with
  | [] => [(key, value)]
  | (k, v) :: o' =>
      if str_eqb k key then (k, value) :: o'
      else (k, v) :: Object_set o' key value
  end.

(** [{ ...target, ...source }], [undefined] spreading to nothing. *)
Definition spread (target : object) (source : option object) : object :=
  match source with
  | Some src => fold_left (fun o kv => Object_set o (fst kv) (snd kv)) src target
  | None => target
  end.

(** A number in a condition: [0] and [NaN] are falsy. *)
Definition number_truthy (n : number) : bool :=
  match n with
  | Finite q => negb (Qeq_bool q 0)
  | NaN => false
  | Infinity _ => true
  end.

(** [v || fallback] on an optional number. *)
Definition or_number (v : option number) (fallback : number) : number :=
  match v with
  | Some n => if number_truthy n then n else fallback
  | None => fallback
  end.

Module ClientOptions.
Record t : Type := {
  timeout : option number;
  baseURL : option jsstring;
  headers : option object
}.
End ClientOptions.

(** The configuration [axios.create] is called with. *)
Module AxiosRequestConfig.
Record t : Type := {
  baseURL : jsstring;
  timeout : number;
  headers : object
}.
End AxiosRequestConfig.

Definition BASE_URL : jsstring := js "https://api.oneclickdz.com".
Definition HEADER_ACCESS_TOKEN : jsstring := js "X-Access-Token".
Definition HEADER_CONTENT_TYPE : jsstring := js "Content-Type".
Definition CONTENT_TYPE_JSON : jsstring := js "application/json".

Definition Client_new (accessToken : jsstring) (options : ClientOptions.t)
  : AxiosRequestConfig.t :=
  {| AxiosRequestConfig.baseURL :=
       or_else (ClientOptions.baseURL options) BASE_URL;
     AxiosRequestConfig.timeout :=
       or_number (ClientOptions.timeout options) (num 30000);
     AxiosRequestConfig.headers :=
       spread
         (Object_set (Object_set [] HEADER_ACCESS_TOKEN accessToken)
                     HEADER_CONTENT_TYPE CONTENT_TYPE_JSON)
         (ClientOptions.headers options) |}.

(** ** ocpay-service.ts *)

Section OCPayService.

Variable T : Type.
Variable URL_parses : jsstring -> bool.
Variable network : HttpRequest -> Settled T.

Definition ENDPOINT_CREATE_LINK : jsstring := js "/v3/ocpay/createLink".
Definition ENDPOINT_CHECK_PAYMENT : jsstring := js "/v3/ocpay/checkPayment".

Definition createLink (request : CreateLinkRequest) : Async T T :=
  match validateCreateLinkRequest URL_parses request with
  | Throw e => raise (PlainError e)
  | Return _ =>
      let requestData :=
        {| productInfo := productInfo request;
           feeMode := Some (or_else (feeMode request) FeeMode.NO_FEE);
           successMessage := successMessage request;
           redirectUrl := redirectUrl request |} in
      response <- Client_post network ENDPOINT_CREATE_LINK requestData ;;;
      ret (ApiResponse.data response)
  end.

Definition checkPayment (paymentRef : jsstring) : Async T T :=
  if match paymentRef with [] => true | _ => false end
     || (length (trim paymentRef) =? 0)
  then raise (PlainError (new_Error (js "Payment reference is required")))
  else
    let endpoint := ENDPOINT_CHECK_PAYMENT ++ js "/" ++ paymentRef in
    response <- Client_get network endpoint ;;;
    ret (ApiResponse.data response).

End OCPayService.

Arguments createLink {T} URL_parses network request.
Arguments checkPayment {T} network paymentRef.

(** ** The scheme of a URL string

    The words "an absolute URL with scheme http or https" speak of the scheme
    the platform's parser finds.  [URL_scheme] follows the URL Standard's
    basic URL parser with no base URL, from its preprocessing through the
    scheme start state and the scheme state: it gives the scheme of every
    input that parses, and [None] where the parser already fails for want of
    a scheme. *)

Definition isC0ControlOrSpace (c : code_unit) : bool := (c <=? 32)%N.

Definition isAsciiTabOrNewline (c : code_unit) : bool :=
  ((c =? 9) || (c =? 10) || (c =? 13))%N.

Definition isAsciiUpperAlpha (c : code_unit) : bool :=
  ((65 <=? c) && (c <=? 90))%N.

Definition isAsciiLowerAlpha (c : code_unit) : bool :=
  ((97 <=? c) && (c <=? 122))%N.

Definition isAsciiAlpha (c : code_unit) : bool :=
  isAsciiUpperAlpha c || isAsciiLowerAlpha c.

Definition isAsciiDigit (c : code_unit) : bool := ((48 <=? c) && (c <=? 57))%N.

Definition asciiLowercase (c : code_unit) : code_unit :=
  if isAsciiUpperAlpha c then (c + 32)%N else c.

Fixpoint stripStart (s : jsstring) : jsstring :=
  match s with
  | [] => []
  | c :: s' => if isC0ControlOrSpace c then stripStart s' else s
  end.

Definition stripEnd (s : jsstring) : jsstring := rev (stripStart (rev s)).

Definition preprocess (input : jsstring) : jsstring :=
  filter (fun c => negb (isAsciiTabOrNewline c)) (stripEnd (stripStart input)).

(** The scheme state: [buffer] holds the lowercased scheme read so far. *)
Fixpoint schemeState (buffer input : jsstring) : option jsstring :=
  match input with
  | [] => None
  | c :: rest =>
      if isAsciiAlpha c || isAsciiDigit c
         || (c =? 43)%N || (c =? 45)%N || (c =? 46)%N
      then schemeState (buffer ++ [asciiLowercase c]) rest
      else if (c =? 58)%N then Some buffer
      else None
  end.

(** The scheme start state. *)
Definition URL_scheme (input : jsstring) : option jsstring :=
  match preprocess input with
  | c :: rest =>
      if isAsciiAlpha c then schemeState [asciiLowercase c] rest else None
  | [] => None
  end.

(** ** The words of the specification *)

(** "amount is an integer": the number [a] is the integer [z]. *)
Definition isTheInteger (a : number) (z : Z) : Prop :=
  match a with
  | Finite q => q == inject_Z z
  | _ => False
  end.

(** "amount is an integer with 500 <= amount <= 500000". *)
Definition integerInRange (a : number) : Prop :=
  exists z : Z, isTheInteger a z /\ (500 <= z <= 500000)%Z.

(** "consists only of whitespace" (the empty string included). *)
Definition isBlank (s : jsstring) : bool := forallb isWhiteSpace s.

(** "after trimming a whitespace-only title to empty". *)
Definition blankToEmpty (t : jsstring) : jsstring :=
  if isBlank t then [] else t.

(** "u parses as an absolute URL with scheme http or https". *)
Definition parsesAsHttpUrl (URL_parses : jsstring -> bool) (u : jsstring)
  : Prop :=
  URL_parses u = true
  /\ (URL_scheme u = Some (js "http") \/ URL_scheme u = Some (js "https")).

(** A validator raises the error with message [msg]. *)
Definition raises (c : completion Error unit) (msg : jsstring) : Prop :=
  c = Throw (new_Error msg).

Definition titleError (c : completion Error unit) : Prop :=
  raises c MSG_TITLE_REQUIRED \/ raises c MSG_TITLE_TOO_LONG.

Definition amountError (c : completion Error unit) : Prop :=
  raises c MSG_AMOUNT_NOT_INTEGER \/ raises c MSG_AMOUNT_TOO_SMALL
  \/ raises c MSG_AMOUNT_TOO_LARGE.

(** The status code and the body observed on a failed call, and the
    correlation id a body carries in [meta.requestId]. *)
Definition observedStatus {T} (error : AxiosError.t T) : option Z :=
  option_map AxiosResponse.status (AxiosError.response error).

Definition observedBody {T} (error : AxiosError.t T)
  : option (ApiResponse.t T) :=
  match AxiosError.response error with
  | Some r => AxiosResponse.data r
  | None => None
  end.

Definition remoteMessage {T} (body : option (ApiResponse.t T))
  : option jsstring :=
  match body with
  | Some d => ApiResponse.message d
  | None => None
  end.

Definition correlationId {T} (body : option (ApiResponse.t T))
  : option jsstring :=
  match body with
  | Some d =>
      match ApiResponse.meta d with
      | Some m => Meta.requestId m
      | None => None
      end
  | None => None
  end.

(** ** Sample values *)

Definition linkExpired {T} (payload : T) : ApiResponse.t T :=
  {| ApiResponse.success := Boolean false;
     ApiResponse.data := payload;
     ApiResponse.message := Some (js "Link expired");
     ApiResponse.meta :=
       Some {| Meta.requestId := Some (js "req-1"); Meta.timestamp := None |} |}.

Definition insufficientBalance {T} (payload : T) : ApiResponse.t T :=
  {| ApiResponse.success := Boolean false;
     ApiResponse.data := payload;
     ApiResponse.message := Some (js "insufficient balance");
     ApiResponse.meta := None |}.

(** A failure body whose message is there and empty. *)
Definition emptyMessage : ApiResponse.t unit :=
  {| ApiResponse.success := Boolean false;
     ApiResponse.data := tt;
     ApiResponse.message := Some [];
     ApiResponse.meta := None |}.

Definition ok200 {T} (body : ApiResponse.t T)
  : AxiosResponse.t (option (ApiResponse.t T)) :=
  {| AxiosResponse.status := 200; AxiosResponse.data := Some body |}.

(** A network that answers every request with status 200 and the body
    [insufficientBalance]. *)
Definition answersInsufficientBalance (_ : HttpRequest) : Settled unit :=
  Fulfilled (ok200 (insufficientBalance tt)).

Definition checkRequest : HttpRequest :=
  {| method := GET;
     url := js "/v3/ocpay/checkPayment/OCPL-A1B2C3-D4E5";
     body := None |}.

(** A 410 answer with the body [linkExpired]. *)
Definition expired410 (transportMessage : jsstring) : AxiosError.t unit :=
  {| AxiosError.response :=
       Some {| AxiosResponse.status := 410;
               AxiosResponse.data := Some (linkExpired tt) |};
     AxiosError.message := transportMessage |}.

(** Two failures with no HTTP response at all. *)
Definition networkError : AxiosError.t unit :=
  {| AxiosError.response := None;
     AxiosError.message := js "Network Error" |}.

Definition timeoutError : AxiosError.t unit :=
  {| AxiosError.response := None;
     AxiosError.message := js "timeout of 30000ms exceeded" |}.

Definition book : ProductInfo :=
  {| title := Some (js "Book"); amount := num 500000; description := None |}.

Definition bookRequest (feeMode redirectUrl : option jsstring)
  : CreateLinkRequest :=
  {| productInfo := Some book;
     feeMode := feeMode;
     successMessage := None;
     redirectUrl := redirectUrl |}.

(** Record updates of a request. *)
Definition withFeeMode (request : CreateLinkRequest) (v : option jsstring)
  : CreateLinkRequest :=
  {| productInfo := productInfo request;
     feeMode := v;
     successMessage := successMessage request;
     redirectUrl := redirectUrl request |}.

Definition withRedirectUrl (request : CreateLinkRequest) (v : option jsstring)
  : CreateLinkRequest :=
  {| productInfo := productInfo request;
     feeMode := feeMode request;
     successMessage := successMessage request;
     redirectUrl := v |}.

(** ** Definitions the proofs go through *)

(** The first check of [validateProductInfo]. *)
Definition titleMissingOrBlank (productInfo : ProductInfo) : bool :=
  negb (truthy (title productInfo)) || isBlank (str (title productInfo)).

(** What [handleResponse] throws on a body with [success: false]. *)
Definition logicalFailure {T} (d : ApiResponse.t T) : OCPayException.t T :=
  new_ApiException (or_else (ApiResponse.message d) (js "API request failed"))
    (Some 0%Z) (correlationId (Some d)) (Some d).

(** The request [createLink] hands to the transport. *)
Definition requestData (request : CreateLinkRequest) : CreateLinkRequest :=
  withFeeMode request (Some (or_else (feeMode request) FeeMode.NO_FEE)).

(** A code unit the URL parser's preprocessing leaves alone. *)
Definition plain (c : code_unit) : Prop := isC0ControlOrSpace c = false.

(** The title rule: a title that is there, not blank and of at most 200
    code units. *)
Definition titleOk (productInfo : ProductInfo) : Prop :=
  exists t, title productInfo = Some t /\ isBlank t = false /\ length t <= 200.

(** An optional text of more than [n] code units. *)
Definition longerThan (n : nat) (v : option jsstring) : Prop :=
  exists s, v = Some s /\ n < length s.

(** The fee mode rule: missing, empty or one of the three. *)
Definition feeModeOk (request : CreateLinkRequest) : Prop :=
  forall f, feeMode request = Some f -> f = [] \/ In f validFeeModes.

(** The messages of the validators, in the order of their checks. *)
Definition validationMessages : list jsstring :=
  [MSG_PRODUCT_INFO_REQUIRED; MSG_TITLE_REQUIRED; MSG_TITLE_TOO_LONG;
   MSG_AMOUNT_NOT_INTEGER; MSG_AMOUNT_TOO_SMALL; MSG_AMOUNT_TOO_LARGE;
   MSG_DESCRIPTION_TOO_LONG; MSG_INVALID_FEE_MODE;
   MSG_SUCCESS_MESSAGE_TOO_LONG; MSG_REDIRECT_URL].

(** The condition under which the fee mode check throws. *)
Definition feeModeRefused (request : CreateLinkRequest) : bool :=
  truthy (feeMode request)
  && negb (Array_includes validFeeModes (str (feeMode request))).

(** The properties [spread] copies from an optional object. *)
Definition entries (o : option object) : object :=
  match o with
  | Some src => src
  | None => []
  end.

(** Options with two custom headers, one of them the access token's. *)
Definition customOptions : ClientOptions.t :=
  {| ClientOptions.timeout := Some (num 0);
     ClientOptions.baseURL := None;
     ClientOptions.headers :=
       Some [(js "X-Access-Token", js "other-token"); (js "Accept", js "*/*")] |}.

(** How a settled request completes a call of [get] or [post]: the
    interceptor rethrows a rejection, [handleResponse] sees the body of a
    fulfilled one. *)
Definition settle {T} (s : Settled T)
  : completion (Thrown T) (ApiResponse.t T) :=
  match s with
  | Fulfilled response => handleResponse (AxiosResponse.data response)
  | Rejected error => Throw (OCPayError (handleException error))
  end.

(** ** Strings: trimming and prefixes *)

Lemma trimStart_nil (s : jsstring) : trimStart s = [] <-> isBlank s = true.
Proof.
  induction s as [|c s IH]; simpl; [tauto|].
  destruct (isWhiteSpace c); simpl; [exact IH|].
  split; discriminate.
Qed.

Lemma trimStart_head (s : jsstring) c r :
  trimStart s = c :: r -> isWhiteSpace c = false.
Proof.
  induction s as [|d s IH]; simpl; [discriminate|].
  destruct (isWhiteSpace d) eqn:E; [exact IH|].
  intros H; inversion H; subst; exact E.
Qed.

Lemma isBlank_rev (s : jsstring) : isBlank (rev s) = isBlank s.
Proof.
  unfold isBlank. induction s as [|c s IH]; simpl; [reflexivity|].
  rewrite forallb_app, IH. simpl. rewrite andb_true_r. apply andb_comm.
Qed.

Lemma trim_blank (s : jsstring) :
  (length (trim s) =? 0) = isBlank s.
Proof.
  unfold trim, trimEnd. rewrite length_rev.
  destruct (isBlank s) eqn:B.
  - apply trimStart_nil in B. rewrite B. reflexivity.
  - destruct (trimStart s) as [|c r] eqn:E.
    + apply trimStart_nil in E. congruence.
    + destruct (trimStart (rev (c :: r))) eqn:E2; [|reflexivity].
      apply trimStart_nil in E2. rewrite isBlank_rev in E2.
      simpl in E2. rewrite (trimStart_head _ _ _ E) in E2. discriminate.
Qed.

(** ** Numbers: integers and comparisons *)

Lemma Number_isInteger_spec (a : number) :
  Number_isInteger a = true <-> exists z : Z, isTheInteger a z.
Proof.
  destruct a as [[n d]| |neg]; simpl.
  - unfold Qeq; simpl. rewrite Z.eqb_eq. split.
    + intros H. exists (n / Z.pos d)%Z.
      rewrite Z.mul_1_r, Z.mul_comm. apply Z_div_exact_full_2; lia.
    + intros [z Hz]. rewrite Z.mul_1_r in Hz. subst n. apply Z_mod_mult.
  - split; [discriminate | intros [_ []]].
  - split; [discriminate | intros [_ []]].
Qed.

Lemma lt_integer (a : number) (z k : Z) :
  isTheInteger a z -> lt a (num k) = (z <? k)%Z.
Proof.
  destruct a as [[n d]| |neg]; simpl; try contradiction.
  unfold Qeq, Qle_bool; simpl. rewrite Z.mul_1_r. intros ->.
  destruct (Z.ltb_spec z k); [apply negb_true_iff | apply negb_false_iff].
  - apply Z.leb_gt. nia.
  - apply Z.leb_le. nia.
Qed.

Lemma gt_integer (a : number) (z k : Z) :
  isTheInteger a z -> gt a (num k) = (k <? z)%Z.
Proof.
  destruct a as [[n d]| |neg]; simpl; try contradiction.
  unfold gt, Qeq, Qle_bool; simpl. rewrite Z.mul_1_r. intros ->.
  destruct (Z.ltb_spec k z); [apply negb_true_iff | apply negb_false_iff].
  - apply Z.leb_gt. nia.
  - apply Z.leb_le. nia.
Qed.

Lemma isTheInteger_unique (a : number) (z z' : Z) :
  isTheInteger a z -> isTheInteger a z' -> z = z'.
Proof.
  destruct a as [q| |neg]; simpl; try contradiction.
  intros H H'. rewrite H in H'. unfold Qeq in H'; simpl in H'. lia.
Qed.

Lemma isTheInteger_num (z : Z) : isTheInteger (num z) z.
Proof. simpl. reflexivity. Qed.

(** ** Messages are told apart *)

Lemma raises_unique c m m' : raises c m -> raises c m' -> m = m'.
Proof. unfold raises. intros -> H. now inversion H. Qed.

Lemma raises_not_Return m : ~ raises (Return tt) m.
Proof. discriminate. Qed.

Ltac differ :=
  let H := fresh in
  intros H; vm_compute in H; discriminate H.

Lemma title_messages_differ : MSG_TITLE_REQUIRED <> MSG_TITLE_TOO_LONG.
Proof. differ. Qed.

(** ** validateProductInfo, check by check *)

Lemma validateProductInfo_required pi :
  titleMissingOrBlank pi = true ->
  raises (validateProductInfo pi) MSG_TITLE_REQUIRED.
Proof.
  unfold titleMissingOrBlank, raises, validateProductInfo.
  rewrite trim_blank. intros ->. reflexivity.
Qed.

Lemma validateProductInfo_too_long pi :
  titleMissingOrBlank pi = false ->
  200 < length (str (title pi)) ->
  raises (validateProductInfo pi) MSG_TITLE_TOO_LONG.
Proof.
  unfold titleMissingOrBlank, raises, validateProductInfo.
  rewrite trim_blank. intros -> H.
  apply Nat.ltb_lt in H. rewrite H. reflexivity.
Qed.

(** What is left of [validateProductInfo] once the title has passed. *)
Lemma validateProductInfo_after_title pi :
  titleMissingOrBlank pi = false ->
  length (str (title pi)) <= 200 ->
  validateProductInfo pi =
    (when negb (Number_isInteger (amount pi))
     throw new_Error MSG_AMOUNT_NOT_INTEGER ;;
     when lt (amount pi) (num 500)
     throw new_Error MSG_AMOUNT_TOO_SMALL ;;
     when gt (amount pi) (num 500000)
     throw new_Error MSG_AMOUNT_TOO_LARGE ;;
     when truthy (description pi) && (1000 <? length (str (description pi)))
     throw new_Error MSG_DESCRIPTION_TOO_LONG ;;
     Return tt).
Proof.
  unfold titleMissingOrBlank, validateProductInfo.
  rewrite trim_blank. intros -> H.
  apply Nat.ltb_ge in H. rewrite H. reflexivity.
Qed.

Lemma title_passes_iff pi :
  ~ titleError (validateProductInfo pi) <->
  titleMissingOrBlank pi = false /\ length (str (title pi)) <= 200.
Proof.
  split.
  - intros H. destruct (titleMissingOrBlank pi) eqn:B.
    + exfalso. apply H. left. now apply validateProductInfo_required.
    + split; [reflexivity|].
      destruct (Nat.le_gt_cases (length (str (title pi))) 200) as [L|L];
        [exact L|].
      exfalso. apply H. right. now apply validateProductInfo_too_long.
  - intros [B L] [H|H];
      rewrite (validateProductInfo_after_title _ B L) in H;
      unfold raises in H;
      repeat match type of H with
             | (if ?c then _ else _) = _ => destruct c
             end;
      inversion H as [E]; vm_compute in E; discriminate E.
Qed.

Lemma titleMissingOrBlank_Some pi t :
  title pi = Some t -> titleMissingOrBlank pi = isBlank t.
Proof.
  unfold titleMissingOrBlank. intros ->. destruct t; reflexivity.
Qed.

Lemma titleMissingOrBlank_None pi :
  title pi = None -> titleMissingOrBlank pi = true.
Proof. unfold titleMissingOrBlank. intros ->. reflexivity. Qed.

Lemma blankToEmpty_length t :
  1 <= length (blankToEmpty t) <= 200 <->
  isBlank t = false /\ length t <= 200.
Proof.
  unfold blankToEmpty. destruct (isBlank t) eqn:B; simpl.
  - split; [lia | intros [H _]; discriminate H].
  - destruct t as [|c t]; [discriminate B|]. simpl. split; intros; [split|]; lia.
Qed.

(** C5. For every title, [validateProductInfo] passes the title checks if and
    only if the title is there and its length, taken after a whitespace-only
    title is trimmed to the empty string, lies between 1 and 200.  A missing
    or whitespace-only title raises the "required" error, a title longer than
    200 raises the other, distinct error. *)
Theorem title_length_rule (pi : ProductInfo) :
  (~ titleError (validateProductInfo pi) <->
   exists t, title pi = Some t /\ 1 <= length (blankToEmpty t) <= 200)
  /\ (title pi = None \/ (exists t, title pi = Some t /\ isBlank t = true) ->
      raises (validateProductInfo pi) MSG_TITLE_REQUIRED)
  /\ (forall t, title pi = Some t -> 200 < length (blankToEmpty t) ->
      raises (validateProductInfo pi) MSG_TITLE_TOO_LONG)
  /\ MSG_TITLE_REQUIRED <> MSG_TITLE_TOO_LONG
  /\ String_includes MSG_TITLE_REQUIRED (js "required") = true
  /\ String_includes MSG_TITLE_TOO_LONG (js "200 characters") = true.
Proof.
  repeat split; try reflexivity; try exact title_messages_differ.
  - intros H. apply title_passes_iff in H as [B L].
    destruct (title pi) as [t|] eqn:E.
    + exists t. split; [reflexivity|]. apply blankToEmpty_length.
      rewrite (titleMissingOrBlank_Some _ _ E) in B. now split.
    + rewrite (titleMissingOrBlank_None _ E) in B. discriminate B.
  - intros [t [E H]]. apply title_passes_iff.
    apply blankToEmpty_length in H as [B L].
    rewrite (titleMissingOrBlank_Some _ _ E), E. now split.
  - intros [E|[t [E B]]]; apply validateProductInfo_required.
    + now apply titleMissingOrBlank_None.
    + now rewrite (titleMissingOrBlank_Some _ _ E).
  - intros t E L. unfold blankToEmpty in L.
    destruct (isBlank t) eqn:B; [simpl in L; lia|].
    apply validateProductInfo_too_long.
    + now rewrite (titleMissingOrBlank_Some _ _ E).
    + now rewrite E.
Qed.

(** The length that decides is the length of the title as given, not of the
    trimmed title: a title of 200 letters after one space is refused although
    its trimmed length is 200. *)
Lemma title_length_is_untrimmed :
  let t := 32%N :: repeat 97%N 200 in
  length (trim t) = 200
  /\ raises (validateProductInfo
               {| title := Some t; amount := num 500; description := None |})
            MSG_TITLE_TOO_LONG.
Proof. split; vm_compute; reflexivity. Qed.

Lemma amount_messages_differ :
  MSG_AMOUNT_NOT_INTEGER <> MSG_AMOUNT_TOO_SMALL
  /\ MSG_AMOUNT_NOT_INTEGER <> MSG_AMOUNT_TOO_LARGE
  /\ MSG_AMOUNT_TOO_SMALL <> MSG_AMOUNT_TOO_LARGE.
Proof. repeat split; differ. Qed.

(** The amount checks, once the title has passed. *)
Lemma amount_not_integer pi :
  ~ titleError (validateProductInfo pi) ->
  ~ (exists z, isTheInteger (amount pi) z) ->
  raises (validateProductInfo pi) MSG_AMOUNT_NOT_INTEGER.
Proof.
  intros HT HN. apply title_passes_iff in HT as [B L].
  rewrite (validateProductInfo_after_title _ B L).
  destruct (Number_isInteger (amount pi)) eqn:E; [|reflexivity].
  exfalso. apply HN. now apply Number_isInteger_spec.
Qed.

Lemma amount_too_small pi z :
  ~ titleError (validateProductInfo pi) ->
  isTheInteger (amount pi) z -> (z < 500)%Z ->
  raises (validateProductInfo pi) MSG_AMOUNT_TOO_SMALL.
Proof.
  intros HT HZ Hlt. apply title_passes_iff in HT as [B L].
  rewrite (validateProductInfo_after_title _ B L).
  assert (I : Number_isInteger (amount pi) = true)
    by (apply Number_isInteger_spec; now exists z).
  rewrite I, (lt_integer _ _ 500 HZ). simpl.
  apply Z.ltb_lt in Hlt. rewrite Hlt. reflexivity.
Qed.

Lemma amount_too_large pi z :
  ~ titleError (validateProductInfo pi) ->
  isTheInteger (amount pi) z -> (500000 < z)%Z ->
  raises (validateProductInfo pi) MSG_AMOUNT_TOO_LARGE.
Proof.
  intros HT HZ Hgt. apply title_passes_iff in HT as [B L].
  rewrite (validateProductInfo_after_title _ B L).
  assert (I : Number_isInteger (amount pi) = true)
    by (apply Number_isInteger_spec; now exists z).
  rewrite I, (lt_integer _ _ 500 HZ), (gt_integer _ _ 500000 HZ). simpl.
  assert (S : (z <? 500)%Z = false) by (apply Z.ltb_ge; lia).
  apply Z.ltb_lt in Hgt. rewrite S, Hgt. reflexivity.
Qed.

Lemma amount_in_range pi :
  ~ titleError (validateProductInfo pi) ->
  integerInRange (amount pi) ->
  validateProductInfo pi = Return tt
  \/ raises (validateProductInfo pi) MSG_DESCRIPTION_TOO_LONG.
Proof.
  intros HT [z [HZ R]]. apply title_passes_iff in HT as [B L].
  rewrite (validateProductInfo_after_title _ B L).
  assert (I : Number_isInteger (amount pi) = true)
    by (apply Number_isInteger_spec; now exists z).
  rewrite I, (lt_integer _ _ 500 HZ), (gt_integer _ _ 500000 HZ). simpl.
  assert (S : (z <? 500)%Z = false) by (apply Z.ltb_ge; lia).
  assert (G : (500000 <? z)%Z = false) by (apply Z.ltb_ge; lia).
  rewrite S, G.
  destruct (truthy (description pi) && _); [right | left]; reflexivity.
Qed.

Lemma amount_passes_iff pi :
  ~ titleError (validateProductInfo pi) ->
  (~ amountError (validateProductInfo pi) <-> integerInRange (amount pi)).
Proof.
  intros HT. split.
  - intros HA.
    destruct (Number_isInteger (amount pi)) eqn:I.
    + apply Number_isInteger_spec in I as [z HZ]. exists z. split; [exact HZ|].
      destruct (Z.lt_ge_cases z 500) as [S|S].
      { exfalso. apply HA. right; left. now apply (amount_too_small pi z). }
      destruct (Z.lt_ge_cases 500000 z) as [G|G].
      { exfalso. apply HA. right; right. now apply (amount_too_large pi z). }
      lia.
    + exfalso. apply HA. left. apply amount_not_integer; [exact HT|].
      intros H. apply Number_isInteger_spec in H. congruence.
  - intros HR HA.
    destruct (amount_in_range pi HT HR) as [H|H];
      destruct HA as [A|[A|A]]; unfold raises in *; rewrite H in A;
      inversion A as [E]; vm_compute in E; discriminate E.
Qed.

(** The checks of [validateCreateLinkRequest] after the product info raise
    none of the messages of [validateProductInfo]. *)
Lemma validateCreateLinkRequest_productInfo URL_parses request pi m :
  productInfo request = Some pi ->
  In m [MSG_TITLE_REQUIRED; MSG_TITLE_TOO_LONG; MSG_AMOUNT_NOT_INTEGER;
        MSG_AMOUNT_TOO_SMALL; MSG_AMOUNT_TOO_LARGE; MSG_DESCRIPTION_TOO_LONG] ->
  (raises (validateCreateLinkRequest URL_parses request) m <->
   raises (validateProductInfo pi) m).
Proof.
  intros E M. unfold validateCreateLinkRequest. rewrite E.
  destruct (validateProductInfo pi) as [[]|e]; simpl; [|tauto].
  assert (N : forall c, ~ raises c m <-> (raises c m <-> raises (Return tt) m)).
  { intros c. split; [intros H; split; [tauto | discriminate] | ].
    intros [H _] R. now apply (raises_not_Return m), H. }
  apply N. unfold raises, validateFeeMode.
  repeat match goal with
         | |- context [if ?c then _ else _] => destruct c
         end;
    simpl; intros H; inversion H as [H']; subst m;
    repeat (destruct M as [M|M];
            [vm_compute in M; discriminate M|]); exact M.
Qed.

Lemma titleOk_iff pi :
  titleOk pi <->
  titleMissingOrBlank pi = false /\ length (str (title pi)) <= 200.
Proof.
  unfold titleOk. split.
  - intros [t [E [B L]]].
    rewrite (titleMissingOrBlank_Some _ _ E), E. now split.
  - intros [B L]. destruct (title pi) as [t|] eqn:E.
    + exists t. rewrite (titleMissingOrBlank_Some _ _ E) in B. now repeat split.
    + rewrite (titleMissingOrBlank_None _ E) in B. discriminate B.
Qed.

Lemma titleOk_no_titleError pi :
  titleOk pi <-> ~ titleError (validateProductInfo pi).
Proof. rewrite titleOk_iff, title_passes_iff. tauto. Qed.

(** C1. For a product info whose title is in order (there, not blank, at
    most 200 long), so that the amount checks are reached,
    [validateProductInfo] (and with it [validateCreateLinkRequest]) passes the
    amount checks if and only if the amount is an integer between 500 and
    500000.  An amount that is no
    integer, one below 500 and one above 500000 each raise their own message;
    499 is refused with "at least 500", 500000 passes, 500001 is refused with
    "exceed 500,000". *)
Theorem amount_range_rule (pi : ProductInfo) (OK : titleOk pi) :
  (~ amountError (validateProductInfo pi) <-> integerInRange (amount pi))
  /\ (~ (exists z, isTheInteger (amount pi) z) ->
      raises (validateProductInfo pi) MSG_AMOUNT_NOT_INTEGER)
  /\ (forall z, isTheInteger (amount pi) z -> (z < 500)%Z ->
      raises (validateProductInfo pi) MSG_AMOUNT_TOO_SMALL)
  /\ (forall z, isTheInteger (amount pi) z -> (500000 < z)%Z ->
      raises (validateProductInfo pi) MSG_AMOUNT_TOO_LARGE)
  /\ (amount pi = num 499 ->
      raises (validateProductInfo pi) MSG_AMOUNT_TOO_SMALL)
  /\ (amount pi = num 500000 -> ~ amountError (validateProductInfo pi))
  /\ (amount pi = num 500001 ->
      raises (validateProductInfo pi) MSG_AMOUNT_TOO_LARGE)
  /\ (forall URL_parses request, productInfo request = Some pi ->
      (~ amountError (validateCreateLinkRequest URL_parses request) <->
       integerInRange (amount pi)))
  /\ String_includes MSG_AMOUNT_TOO_SMALL (js "at least 500") = true
  /\ String_includes MSG_AMOUNT_TOO_LARGE (js "exceed 500,000") = true
  /\ MSG_AMOUNT_NOT_INTEGER <> MSG_AMOUNT_TOO_SMALL
  /\ MSG_AMOUNT_NOT_INTEGER <> MSG_AMOUNT_TOO_LARGE
  /\ MSG_AMOUNT_TOO_SMALL <> MSG_AMOUNT_TOO_LARGE.
Proof.
  pose proof (proj1 (titleOk_no_titleError pi) OK) as HT.
  pose proof (amount_passes_iff pi HT) as IFF.
  split; [exact IFF|].
  split; [now apply amount_not_integer|].
  split; [intros z; now apply amount_too_small|].
  split; [intros z; now apply amount_too_large|].
  split.
  { intros E. apply (amount_too_small pi 499 HT); [|lia].
    rewrite E. apply isTheInteger_num. }
  split.
  { intros E. apply IFF. exists 500000%Z. split; [|lia].
    rewrite E. apply isTheInteger_num. }
  split.
  { intros E. apply (amount_too_large pi 500001 HT); [|lia].
    rewrite E. apply isTheInteger_num. }
  split.
  { intros URL_parses request E. rewrite <- IFF. unfold amountError.
    rewrite !(validateCreateLinkRequest_productInfo URL_parses request pi _ E);
      [tauto | simpl; tauto ..]. }
  split; [reflexivity|]. split; [reflexivity|].
  exact amount_messages_differ.
Qed.

Lemma book_passes : validateProductInfo book = Return tt.
Proof. vm_compute. reflexivity. Defined.

Lemma amount_range_rule_witness :
  titleOk book
  /\ (~ amountError (validateProductInfo book) <->
      integerInRange (amount book)).
Proof.
  assert (OK : titleOk book).
  { exists (js "Book"). repeat split. vm_compute. lia. }
  split; [exact OK|].
  exact (proj1 (amount_range_rule book OK)).
Defined.

(** ** The error classifier *)

Lemma or_status_observed {T} (error : AxiosError.t T) :
  or_status (observedStatus error) 0 =
  match AxiosError.response error with
  | Some r => AxiosResponse.status r
  | None => 0%Z
  end.
Proof.
  unfold observedStatus. destruct (AxiosError.response error) as [r|]; simpl;
    [|reflexivity].
  destruct (Z.eqb_spec (AxiosResponse.status r) 0); congruence.
Qed.

(** The fields every exception of [handleException] is built with. *)
Lemma handleException_fields {T} (error : AxiosError.t T) :
  OCPayException.message (handleException error) =
    or_else (remoteMessage (observedBody error)) (AxiosError.message error)
  /\ OCPayException.statusCode (handleException error) =
       Some (or_status (observedStatus error) 0)
  /\ OCPayException.requestId (handleException error) =
       correlationId (observedBody error)
  /\ OCPayException.errorData (handleException error) = observedBody error.
Proof.
  unfold handleException, observedStatus, observedBody, remoteMessage,
    correlationId.
  repeat match goal with
         | |- context [if (?a =? ?b)%Z then _ else _] => destruct (a =? b)%Z
         end; simpl; repeat split; reflexivity.
Qed.

(** The class is picked by the status code alone. *)
Lemma handleException_kind {T} (error : AxiosError.t T) :
  let s := or_status (observedStatus error) 0 in
  OCPayException.kind (handleException error) =
    if (s =? 400)%Z then ValidationException
    else if (s =? 403)%Z then UnauthorizedException
    else if (s =? 404)%Z then NotFoundException
    else if (s =? 410)%Z then PaymentExpiredException
    else ApiException.
Proof.
  unfold handleException, observedStatus. simpl.
  repeat match goal with
         | |- context [if (?a =? ?b)%Z then _ else _] => destruct (a =? b)%Z
         end; reflexivity.
Qed.

(** C2. The classifier maps the status code observed on a failed call to one
    exception kind: 400 to [ValidationException], 403 to
    [UnauthorizedException], 404 to [NotFoundException], 410 to
    [PaymentExpiredException], every other status and a missing one to
    [ApiException].  Status 410 with the body
    [{success:false, message:"Link expired", meta:{requestId:"req-1"}}] gives
    the expired-link failure with that message, status 410 and id "req-1". *)
Theorem status_classification :
  (forall T (error : AxiosError.t T),
      let kind := OCPayException.kind (handleException error) in
      (observedStatus error = Some 400%Z -> kind = ValidationException)
      /\ (observedStatus error = Some 403%Z -> kind = UnauthorizedException)
      /\ (observedStatus error = Some 404%Z -> kind = NotFoundException)
      /\ (observedStatus error = Some 410%Z -> kind = PaymentExpiredException)
      /\ (observedStatus error <> Some 400%Z ->
          observedStatus error <> Some 403%Z ->
          observedStatus error <> Some 404%Z ->
          observedStatus error <> Some 410%Z -> kind = ApiException))
  /\ (forall T (payload : T) (transportMessage : jsstring),
         handleException
           {| AxiosError.response :=
                Some {| AxiosResponse.status := 410;
                        AxiosResponse.data := Some (linkExpired payload) |};
              AxiosError.message := transportMessage |}
         = {| OCPayException.kind := PaymentExpiredException;
              OCPayException.message := js "Link expired";
              OCPayException.statusCode := Some 410%Z;
              OCPayException.requestId := Some (js "req-1");
              OCPayException.errorData := Some (linkExpired payload) |}).
Proof.
  split; [|reflexivity].
  intros T error kind. subst kind. rewrite handleException_kind.
  repeat split.
  1-4: intros H; rewrite H; reflexivity.
  intros H0 H3 H4 H10. simpl.
  destruct (observedStatus error) as [s|]; [|reflexivity]. simpl.
  destruct (Z.eqb_spec s 0) as [->|_]; [reflexivity|].
  destruct (Z.eqb_spec s 400) as [->|_]; [congruence|].
  destruct (Z.eqb_spec s 403) as [->|_]; [congruence|].
  destruct (Z.eqb_spec s 404) as [->|_]; [congruence|].
  destruct (Z.eqb_spec s 410) as [->|_]; [congruence|].
  reflexivity.
Qed.

Lemma or_else_present (m fallback : jsstring) :
  m <> [] -> or_else (Some m) fallback = m.
Proof. destruct m; [congruence | reflexivity]. Qed.

Lemma or_else_absent (v : option jsstring) (fallback : jsstring) :
  v = None \/ v = Some [] -> or_else v fallback = fallback.
Proof. intros [->| ->]; reflexivity. Qed.

Lemma handleResponse_failure {T} (d : ApiResponse.t T) :
  ApiResponse.success d = Boolean false ->
  handleResponse (Some d) = Throw (OCPayError (logicalFailure d)).
Proof. unfold handleResponse. intros ->. reflexivity. Qed.

Lemma handleResponse_success {T} (d : ApiResponse.t T) :
  isFalse (ApiResponse.success d) = false ->
  handleResponse (Some d) = Return d.
Proof. unfold handleResponse. intros ->. reflexivity. Qed.

(** C3, as the code has it. A body with [success: false] received over a
    successful transport makes [handleResponse] (and so [get] and [post])
    throw a plain [ApiException], none of the four special kinds.  Its
    message is the body's message when that is present and not empty, and the
    fixed text "API request failed" when the message is missing or empty. *)
Theorem logical_failure_is_generic (T : Type) (d : ApiResponse.t T)
    (H : ApiResponse.success d = Boolean false) :
  exists e,
    handleResponse (Some d) = Throw (OCPayError e)
    /\ OCPayException.kind e = ApiException
    /\ (forall m, ApiResponse.message d = Some m -> m <> [] ->
        OCPayException.message e = m)
    /\ (ApiResponse.message d = None \/ ApiResponse.message d = Some [] ->
        OCPayException.message e = js "API request failed")
    /\ (forall network endpoint status,
          network {| method := GET; url := endpoint; body := None |}
          = Fulfilled {| AxiosResponse.status := status;
                         AxiosResponse.data := Some d |} ->
          snd (Client_get network endpoint) = Throw (OCPayError e))
    /\ (forall network endpoint data status,
          network {| method := POST; url := endpoint; body := Some data |}
          = Fulfilled {| AxiosResponse.status := status;
                         AxiosResponse.data := Some d |} ->
          snd (Client_post network endpoint data) = Throw (OCPayError e)).
Proof.
  exists (logicalFailure d).
  split; [now apply handleResponse_failure|].
  split; [reflexivity|].
  split; [intros m E N; simpl; rewrite E; now apply or_else_present|].
  split; [intros E; simpl; now apply or_else_absent|].
  split.
  - intros network endpoint status N.
    unfold Client_get, httpClient, await. rewrite N. simpl.
    now apply handleResponse_failure.
  - intros network endpoint data status N.
    unfold Client_post, httpClient, await. rewrite N. simpl.
    now apply handleResponse_failure.
Qed.

(** Status 200 with the body [{success:false, message:"insufficient
    balance"}] gives a generic API failure. *)
Lemma logical_failure_is_generic_witness :
  ApiResponse.success (insufficientBalance tt) = Boolean false
  /\ exists e,
      handleResponse (Some (insufficientBalance tt)) = Throw (OCPayError e)
      /\ OCPayException.kind e = ApiException
      /\ OCPayException.message e = js "insufficient balance"
      /\ snd (Client_get (fun _ => Fulfilled (ok200 (insufficientBalance tt)))
                (js "/v3/ocpay/checkPayment/OCPL-A1B2C3-D4E5"))
         = Throw (OCPayError e).
Proof.
  split; [reflexivity|].
  destruct (logical_failure_is_generic unit (insufficientBalance tt) eq_refl)
    as [e [H1 [H2 [H3 [_ [H5 _]]]]]].
  exists e. split; [exact H1|]. split; [exact H2|]. split.
  - apply H3; [reflexivity | discriminate].
  - apply (H5 _ _ 200%Z). reflexivity.
Defined.

(** The message of a failure body that is present and empty is not kept:
    the exception carries the fallback text. *)
Lemma empty_message_not_kept :
  ApiResponse.success emptyMessage = Boolean false
  /\ ApiResponse.message emptyMessage = Some []
  /\ exists e,
      handleResponse (Some emptyMessage) = Throw (OCPayError e)
      /\ OCPayException.message e = js "API request failed"
      /\ OCPayException.message e <> [].
Proof.
  split; [reflexivity|]. split; [reflexivity|].
  exists (logicalFailure emptyMessage).
  split; [reflexivity|]. split; [reflexivity|]. discriminate.
Qed.

(** C4, as the code has it. Every exception the classifier builds carries:
    the remote message when the body has one that is not empty, and the
    transport's message otherwise; the status of the HTTP response, and 0
    when no response was received (so 0 exactly then, a response never
    having status 0); the correlation id of the body's [meta.requestId]; and
    the body itself.  The exception for a [success: false] body on a
    successful transport carries message, correlation id and body in the same
    way, with the fixed text as fallback, and its status code is 0. *)
Theorem exception_fields :
  (forall T (error : AxiosError.t T),
      let e := handleException error in
      let body := observedBody error in
      (forall m, remoteMessage body = Some m -> m <> [] ->
       OCPayException.message e = m)
      /\ (remoteMessage body = None \/ remoteMessage body = Some [] ->
          OCPayException.message e = AxiosError.message error)
      /\ (forall r, AxiosError.response error = Some r ->
          OCPayException.statusCode e = Some (AxiosResponse.status r))
      /\ (AxiosError.response error = None ->
          OCPayException.statusCode e = Some 0%Z)
      /\ ((forall r, AxiosError.response error = Some r ->
           AxiosResponse.status r <> 0%Z) ->
          (OCPayException.statusCode e = Some 0%Z <->
           AxiosError.response error = None))
      /\ OCPayException.requestId e = correlationId body
      /\ OCPayException.errorData e = body)
  /\ (forall T (d : ApiResponse.t T),
         ApiResponse.success d = Boolean false ->
         exists e,
           handleResponse (Some d) = Throw (OCPayError e)
           /\ (forall m, ApiResponse.message d = Some m -> m <> [] ->
               OCPayException.message e = m)
           /\ (ApiResponse.message d = None \/ ApiResponse.message d = Some [] ->
               OCPayException.message e = js "API request failed")
           /\ OCPayException.statusCode e = Some 0%Z
           /\ OCPayException.requestId e = correlationId (Some d)
           /\ OCPayException.errorData e = Some d).
Proof.
  split.
  - intros T error e body. subst e body.
    destruct (handleException_fields error) as [M [S [R D]]].
    rewrite or_status_observed in S.
    split; [intros m E N; rewrite M, E; now apply or_else_present|].
    split; [intros E; rewrite M; now apply or_else_absent|].
    split; [intros r E; rewrite S, E; reflexivity|].
    split; [intros E; rewrite S, E; reflexivity|].
    split; [|split; assumption].
    intros NZ. rewrite S.
    destruct (AxiosError.response error) as [r|]; [|tauto].
    split; [|discriminate].
    intros E. exfalso. apply (NZ r eq_refl). congruence.
  - intros T d H. exists (logicalFailure d).
    split; [now apply handleResponse_failure|].
    split; [intros m E N; simpl; rewrite E; now apply or_else_present|].
    split; [intros E; simpl; now apply or_else_absent|].
    repeat split.
Qed.

(** On the path of a [success: false] body the status code is 0 although an
    HTTP response, with status 200, was received. *)
Lemma status_zero_with_response :
  answersInsufficientBalance checkRequest
  = Fulfilled (ok200 (insufficientBalance tt))
  /\ AxiosResponse.status (ok200 (insufficientBalance tt)) = 200%Z
  /\ exists e,
      Client_get answersInsufficientBalance (url checkRequest)
      = ([checkRequest], Throw (OCPayError e))
      /\ OCPayException.statusCode e = Some 0%Z.
Proof.
  split; [reflexivity|]. split; [reflexivity|].
  exists (logicalFailure (insufficientBalance tt)). split; reflexivity.
Qed.

(** C9, as the code has it. Two failed calls with the same status code and
    body are classified with the same kind, status code, correlation id and
    body; their messages are the same when the body has a message that is not
    empty, or when the transport gave both the same message. *)
Theorem classification_by_status_and_body (T : Type) (e1 e2 : AxiosError.t T)
    (HS : observedStatus e1 = observedStatus e2)
    (HB : observedBody e1 = observedBody e2) :
  OCPayException.kind (handleException e1)
  = OCPayException.kind (handleException e2)
  /\ OCPayException.statusCode (handleException e1)
     = OCPayException.statusCode (handleException e2)
  /\ OCPayException.requestId (handleException e1)
     = OCPayException.requestId (handleException e2)
  /\ OCPayException.errorData (handleException e1)
     = OCPayException.errorData (handleException e2)
  /\ ((exists m, remoteMessage (observedBody e1) = Some m /\ m <> [])
      \/ AxiosError.message e1 = AxiosError.message e2 ->
      OCPayException.message (handleException e1)
      = OCPayException.message (handleException e2)).
Proof.
  destruct (handleException_fields e1) as [M1 [S1 [R1 D1]]].
  destruct (handleException_fields e2) as [M2 [S2 [R2 D2]]].
  split; [rewrite !handleException_kind; simpl; rewrite HS; reflexivity|].
  split; [congruence|]. split; [congruence|]. split; [congruence|].
  rewrite M1, M2, <- HB.
  intros [[m [E N]]| E].
  - rewrite E, !or_else_present by exact N. reflexivity.
  - rewrite E. reflexivity.
Qed.

(** Two 410 answers with the body [linkExpired], differing in the transport's
    message, are classified alike. *)
Lemma classification_by_status_and_body_witness :
  observedStatus (expired410 (js "Request failed with status code 410"))
  = observedStatus (expired410 (js "aborted"))
  /\ observedBody (expired410 (js "Request failed with status code 410"))
     = observedBody (expired410 (js "aborted"))
  /\ OCPayException.message
       (handleException (expired410 (js "Request failed with status code 410")))
     = OCPayException.message (handleException (expired410 (js "aborted"))).
Proof.
  split; [reflexivity|]. split; [reflexivity|].
  apply (classification_by_status_and_body unit
           (expired410 (js "Request failed with status code 410"))
           (expired410 (js "aborted")) eq_refl eq_refl).
  left. exists (js "Link expired"). split; [reflexivity | discriminate].
Defined.

(** With no response there is neither status nor body, and the message of the
    exception is the transport's: two such failures share status and body and
    differ in the message. *)
Lemma same_status_and_body_other_message :
  observedStatus networkError = observedStatus timeoutError
  /\ observedBody networkError = observedBody timeoutError
  /\ OCPayException.message (handleException networkError)
     <> OCPayException.message (handleException timeoutError).
Proof.
  split; [reflexivity|]. split; [reflexivity|].
  intros H. vm_compute in H. discriminate H.
Qed.

(** ** The service *)

Lemma isBlank_nonempty (s : jsstring) :
  isBlank s = false ->
  (match s with [] => true | _ => false end || (length (trim s) =? 0)) = false.
Proof.
  intros B. rewrite trim_blank, B.
  destruct s; [discriminate B | reflexivity].
Qed.

Lemma isBlank_rejected (s : jsstring) :
  s = [] \/ isBlank s = true ->
  (match s with [] => true | _ => false end || (length (trim s) =? 0)) = true.
Proof.
  intros [->|B]; [reflexivity|]. rewrite trim_blank, B. apply orb_true_r.
Qed.

(** What a request through [get] comes to, by how the network settles it. *)
Lemma Client_get_settled {T} (network : HttpRequest -> Settled T) endpoint :
  Client_get network endpoint =
  ([{| method := GET; url := endpoint; body := None |}],
   match network {| method := GET; url := endpoint; body := None |} with
   | Fulfilled response => handleResponse (AxiosResponse.data response)
   | Rejected error => Throw (OCPayError (handleException error))
   end).
Proof.
  unfold Client_get, httpClient, await.
  destruct (network _); reflexivity.
Qed.

Lemma Client_post_settled {T} (network : HttpRequest -> Settled T)
    endpoint data :
  Client_post network endpoint data =
  ([{| method := POST; url := endpoint; body := Some data |}],
   match network {| method := POST; url := endpoint; body := Some data |} with
   | Fulfilled response => handleResponse (AxiosResponse.data response)
   | Rejected error => Throw (OCPayError (handleException error))
   end).
Proof.
  unfold Client_post, httpClient, await.
  destruct (network _); reflexivity.
Qed.

Lemma handleResponse_not_plain {T} (d : option (ApiResponse.t T)) e :
  handleResponse d <> Throw (PlainError e).
Proof.
  unfold handleResponse. destruct d as [d|]; [|discriminate].
  destruct (isFalse (ApiResponse.success d)); discriminate.
Qed.

(** C7. A payment reference that is empty or all whitespace makes
    [checkPayment] throw a plain [Error], which has neither status code nor
    request id, with no request handed to the transport.  Every other
    reference is not refused locally: exactly one GET request for it goes to
    the transport, and the call completes as the transport and the classifier
    decide. *)
Theorem blank_reference_rejected_locally :
  forall T (network : HttpRequest -> Settled T) (paymentRef : jsstring),
    (paymentRef = [] \/ isBlank paymentRef = true ->
     checkPayment network paymentRef
     = ([], Throw (PlainError (new_Error (js "Payment reference is required")))))
    /\ (isBlank paymentRef = false ->
        let request :=
          {| method := GET;
             url := ENDPOINT_CHECK_PAYMENT ++ js "/" ++ paymentRef;
             body := None |} in
        fst (checkPayment network paymentRef) = [request]
        /\ (forall e, snd (checkPayment network paymentRef)
                      <> Throw (PlainError e))
        /\ snd (checkPayment network paymentRef)
           = match network request with
             | Fulfilled response =>
                 bind (handleResponse (AxiosResponse.data response))
                      (fun r => Return (ApiResponse.data r))
             | Rejected error => Throw (OCPayError (handleException error))
             end).
Proof.
  intros T network paymentRef. split.
  - intros H. unfold checkPayment. rewrite (isBlank_rejected _ H). reflexivity.
  - intros B request. unfold checkPayment.
    rewrite (isBlank_nonempty _ B), Client_get_settled. fold request.
    unfold await, ret.
    destruct (network request) as [response|error]; simpl.
    + pose proof (handleResponse_not_plain (AxiosResponse.data response)) as NP.
      destruct (handleResponse (AxiosResponse.data response)) as [r|e]; simpl.
      * repeat split. discriminate.
      * repeat split. intros e' E. apply (NP e'). congruence.
    + repeat split. discriminate.
Qed.

Lemma str_eqb_eq (a b : jsstring) : str_eqb a b = true <-> a = b.
Proof.
  revert b. induction a as [|x a IH]; destruct b as [|y b]; simpl;
    try (split; [discriminate | congruence]); [tauto|].
  rewrite andb_true_iff, N.eqb_eq, IH. split.
  - intros [-> ->]. reflexivity.
  - intros H. inversion H. tauto.
Qed.

Lemma Array_includes_In (xs : list jsstring) (x : jsstring) :
  Array_includes xs x = true <-> In x xs.
Proof.
  unfold Array_includes. rewrite existsb_exists. split.
  - intros [y [I E]]. apply str_eqb_eq in E. now subst.
  - intros I. exists x. split; [exact I | now apply str_eqb_eq].
Qed.

Lemma validFeeModes_truthy (f : jsstring) : In f validFeeModes -> f <> [].
Proof.
  intros [<-|[<-|[<-|[]]]]; discriminate.
Qed.

Lemma createLink_valid {T} URL_parses (network : HttpRequest -> Settled T)
    request :
  validateCreateLinkRequest URL_parses request = Return tt ->
  createLink URL_parses network request =
  (response <- Client_post network ENDPOINT_CREATE_LINK (requestData request) ;;;
   ret (ApiResponse.data response)).
Proof. unfold createLink. intros ->. reflexivity. Qed.

Lemma createLink_invalid {T} URL_parses (network : HttpRequest -> Settled T)
    request e :
  validateCreateLinkRequest URL_parses request = Throw e ->
  createLink URL_parses network request = ([], Throw (PlainError e)).
Proof. unfold createLink. intros ->. reflexivity. Qed.

Lemma createLink_sent {T} URL_parses (network : HttpRequest -> Settled T)
    request :
  validateCreateLinkRequest URL_parses request = Return tt ->
  fst (createLink URL_parses network request) =
  [{| method := POST; url := ENDPOINT_CREATE_LINK;
      body := Some (requestData request) |}].
Proof.
  intros H. rewrite (createLink_valid _ _ _ H), Client_post_settled.
  unfold await, ret.
  destruct (network _) as [response|error]; [|reflexivity].
  destruct (handleResponse _); reflexivity.
Qed.

(** A request that passes validation has a fee mode that is missing, empty
    or one of the three. *)
Lemma valid_request_feeMode URL_parses request f :
  validateCreateLinkRequest URL_parses request = Return tt ->
  feeMode request = Some f -> f <> [] -> In f validFeeModes.
Proof.
  unfold validateCreateLinkRequest. intros H E N.
  destruct (productInfo request) as [pi|]; [|discriminate H].
  destruct (validateProductInfo pi) as [[]|e]; [|discriminate H].
  simpl in H. rewrite E in H.
  destruct f as [|c f]; [congruence|]. simpl in H.
  unfold validateFeeMode in H.
  destruct (Array_includes validFeeModes (c :: f)) eqn:A;
    [now apply Array_includes_In | discriminate H].
Qed.

(** C8. For a request that passes validation [createLink] hands the
    transport one POST whose body is the request itself but for [feeMode]:
    product info, success message and redirect URL are the caller's, a
    missing fee mode is sent as [NO_FEE], and a fee mode that was given and
    valid is sent as given. *)
Theorem createLink_sends_request_verbatim (T : Type)
    (URL_parses : jsstring -> bool) (network : HttpRequest -> Settled T)
    (request : CreateLinkRequest)
    (H : validateCreateLinkRequest URL_parses request = Return tt) :
  exists sent,
    fst (createLink URL_parses network request)
    = [{| method := POST; url := ENDPOINT_CREATE_LINK; body := Some sent |}]
    /\ productInfo sent = productInfo request
    /\ successMessage sent = successMessage request
    /\ redirectUrl sent = redirectUrl request
    /\ (feeMode request = None -> feeMode sent = Some FeeMode.NO_FEE)
    /\ (forall f, feeMode request = Some f -> In f validFeeModes ->
        feeMode sent = Some f)
    /\ (forall f, feeMode request = Some f -> f <> [] ->
        In f validFeeModes /\ feeMode sent = Some f).
Proof.
  exists (requestData request).
  split; [now apply createLink_sent|].
  do 3 (split; [reflexivity|]). simpl.
  split; [intros ->; reflexivity|].
  split.
  - intros f -> I. now rewrite (or_else_present _ _ (validFeeModes_truthy _ I)).
  - intros f E N. split.
    + now apply (valid_request_feeMode URL_parses request).
    + rewrite E. now rewrite or_else_present.
Qed.

Lemma createLink_sends_request_verbatim_witness :
  validateCreateLinkRequest (fun _ => true)
    (bookRequest (Some FeeMode.SPLIT_FEE) (Some (js "https://yourstore.com/success")))
  = Return tt
  /\ exists sent,
      fst (createLink (fun _ => true) answersInsufficientBalance
             (bookRequest (Some FeeMode.SPLIT_FEE)
                          (Some (js "https://yourstore.com/success"))))
      = [{| method := POST; url := ENDPOINT_CREATE_LINK; body := Some sent |}]
      /\ feeMode sent = Some FeeMode.SPLIT_FEE.
Proof.
  assert (V : validateCreateLinkRequest (fun _ => true)
                (bookRequest (Some FeeMode.SPLIT_FEE)
                             (Some (js "https://yourstore.com/success")))
              = Return tt) by (vm_compute; reflexivity).
  split; [exact V|].
  destruct (createLink_sends_request_verbatim unit (fun _ => true)
              answersInsufficientBalance _ V)
    as [sent [S [_ [_ [_ [_ [F _]]]]]]].
  exists sent. split; [exact S|].
  apply F; [reflexivity | simpl; tauto].
Defined.

Ltac other_message H :=
  repeat match type of H with
         | context [if ?c then _ else _] => destruct c
         end;
  simpl in H; unfold raises in H;
  try discriminate H;
  let E := fresh in inversion H as [E]; vm_compute in E; discriminate E.

Lemma validateProductInfo_no_feeMode_error pi :
  ~ raises (validateProductInfo pi) MSG_INVALID_FEE_MODE.
Proof.
  unfold validateProductInfo. intros H. other_message H.
Qed.

(** C10. A fee mode that is present and falsy (the empty string) is handled
    as a missing one: [validateCreateLinkRequest] does not run the membership
    check, so validation gives the same result, and [createLink] behaves the
    same and sends [NO_FEE] in its place.  The membership error is raised
    only for a fee mode that is truthy and none of [NO_FEE], [SPLIT_FEE],
    [CUSTOMER_FEE]. *)
Theorem falsy_feeMode_is_absent :
  forall T (URL_parses : jsstring -> bool) (network : HttpRequest -> Settled T)
         (request : CreateLinkRequest),
    validateCreateLinkRequest URL_parses (withFeeMode request (Some []))
    = validateCreateLinkRequest URL_parses (withFeeMode request None)
    /\ ~ raises (validateCreateLinkRequest URL_parses
                   (withFeeMode request (Some []))) MSG_INVALID_FEE_MODE
    /\ createLink URL_parses network (withFeeMode request (Some []))
       = createLink URL_parses network (withFeeMode request None)
    /\ (validateCreateLinkRequest URL_parses (withFeeMode request (Some []))
        = Return tt ->
        fst (createLink URL_parses network (withFeeMode request (Some [])))
        = [{| method := POST; url := ENDPOINT_CREATE_LINK;
              body := Some (withFeeMode request (Some FeeMode.NO_FEE)) |}])
    /\ (raises (validateCreateLinkRequest URL_parses request)
               MSG_INVALID_FEE_MODE ->
        exists f, feeMode request = Some f /\ f <> [] /\ ~ In f validFeeModes).
Proof.
  intros T URL_parses network request.
  assert (V : validateCreateLinkRequest URL_parses (withFeeMode request (Some []))
              = validateCreateLinkRequest URL_parses (withFeeMode request None))
    by reflexivity.
  assert (R : forall request,
             raises (validateCreateLinkRequest URL_parses request)
                    MSG_INVALID_FEE_MODE ->
             exists f, feeMode request = Some f /\ f <> []
                       /\ ~ In f validFeeModes).
  { clear. intros request H. unfold validateCreateLinkRequest in H.
    destruct (productInfo request) as [pi|]; [|other_message H].
    pose proof (validateProductInfo_no_feeMode_error pi) as NP.
    destruct (validateProductInfo pi) as [[]|e]; simpl in H;
      [|exfalso; apply NP; exact H].
    destruct (feeMode request) as [[|c f]|]; simpl in H;
      [other_message H | | other_message H].
    unfold validateFeeMode in H.
    destruct (Array_includes validFeeModes (c :: f)) eqn:A; simpl in H;
      [other_message H|].
    exists (c :: f). split; [reflexivity|]. split; [discriminate|].
    intros I. apply Array_includes_In in I. congruence. }
  split; [exact V|].
  split.
  { intros H. apply R in H as [f [E [N _]]]. simpl in E. congruence. }
  split.
  { unfold createLink. rewrite V.
    destruct (validateCreateLinkRequest _ _); reflexivity. }
  split; [|apply R].
  intros H. rewrite (createLink_sent _ _ _ H). reflexivity.
Qed.

(** ** The redirect URL *)

Lemma startsWith_prefix (s p : jsstring) :
  startsWith s p = true -> exists rest, s = p ++ rest.
Proof.
  revert s. induction p as [|c p IH]; intros s H; simpl in *.
  - now exists s.
  - destruct s as [|d s]; [discriminate H|].
    apply andb_true_iff in H as [E H]. apply N.eqb_eq in E. subst d.
    destruct (IH s H) as [rest ->]. now exists rest.
Qed.

Lemma plain_not_tab c : plain c -> isAsciiTabOrNewline c = false.
Proof.
  unfold plain, isC0ControlOrSpace, isAsciiTabOrNewline. intros H.
  apply N.leb_gt in H.
  repeat (apply orb_false_iff; split); apply N.eqb_neq; lia.
Qed.

Lemma stripStart_snoc (l : jsstring) c :
  plain c -> stripStart (l ++ [c]) = stripStart l ++ [c].
Proof.
  intros P. induction l as [|d l IH]; simpl.
  - now rewrite P.
  - destruct (isC0ControlOrSpace d); [exact IH | reflexivity].
Qed.

Lemma stripEnd_cons (s : jsstring) c :
  plain c -> stripEnd (c :: s) = c :: stripEnd s.
Proof.
  intros P. unfold stripEnd. simpl.
  rewrite (stripStart_snoc _ _ P), rev_app_distr. reflexivity.
Qed.

Lemma stripEnd_prefix (p rest : jsstring) :
  Forall plain p -> stripEnd (p ++ rest) = p ++ stripEnd rest.
Proof.
  induction 1 as [|c p P _ IH]; simpl; [reflexivity|].
  now rewrite (stripEnd_cons _ _ P), IH.
Qed.

Lemma filter_plain (l : jsstring) :
  Forall plain l ->
  filter (fun c => negb (isAsciiTabOrNewline c)) l = l.
Proof.
  induction 1 as [|d q P _ IH]; simpl; [reflexivity|].
  now rewrite (plain_not_tab _ P), IH.
Qed.

Lemma preprocess_prefix (c : code_unit) (p rest : jsstring) :
  Forall plain (c :: p) ->
  preprocess ((c :: p) ++ rest) =
  (c :: p) ++ filter (fun c => negb (isAsciiTabOrNewline c)) (stripEnd rest).
Proof.
  intros F. unfold preprocess.
  assert (S : stripStart ((c :: p) ++ rest) = (c :: p) ++ rest).
  { simpl. inversion F as [|? ? P _]. now rewrite P. }
  rewrite S, (stripEnd_prefix _ _ F), filter_app. f_equal.
  now apply filter_plain.
Qed.

Lemma URL_scheme_http (u : jsstring) :
  startsWith u (js "http://") = true -> URL_scheme u = Some (js "http").
Proof.
  intros H. apply startsWith_prefix in H as [rest ->].
  unfold URL_scheme. change (js "http://") with (104 :: js "ttp://")%N.
  rewrite preprocess_prefix; [reflexivity|].
  repeat constructor.
Qed.

Lemma URL_scheme_https (u : jsstring) :
  startsWith u (js "https://") = true -> URL_scheme u = Some (js "https").
Proof.
  intros H. apply startsWith_prefix in H as [rest ->].
  unfold URL_scheme. change (js "https://") with (104 :: js "ttps://")%N.
  rewrite preprocess_prefix; [reflexivity|].
  repeat constructor.
Qed.

(** [isValidUrl] asks for more than the scheme: the string itself has to
    begin with "http://" or "https://". *)
Lemma isValidUrl_iff URL_parses (u : jsstring) :
  isValidUrl URL_parses u = true <->
  URL_parses u = true
  /\ (startsWith u (js "http://") = true \/ startsWith u (js "https://") = true).
Proof.
  unfold isValidUrl. destruct (URL_parses u).
  - rewrite orb_true_iff. tauto.
  - split; [discriminate | intros [H _]; discriminate H].
Qed.

Lemma isValidUrl_parses URL_parses (u : jsstring) :
  isValidUrl URL_parses u = true -> parsesAsHttpUrl URL_parses u.
Proof.
  intros H. apply isValidUrl_iff in H as [P [S|S]]; split; try exact P.
  - left. now apply URL_scheme_http.
  - right. now apply URL_scheme_https.
Qed.

(** The redirect check is the last one. *)
Lemma validateCreateLinkRequest_redirectUrl URL_parses request :
  validateCreateLinkRequest URL_parses (withRedirectUrl request None)
  = Return tt ->
  validateCreateLinkRequest URL_parses request =
  (when truthy (redirectUrl request)
        && negb (isValidUrl URL_parses (str (redirectUrl request)))
   throw new_Error MSG_REDIRECT_URL ;;
   Return tt).
Proof.
  unfold validateCreateLinkRequest. simpl.
  destruct (productInfo request) as [pi|]; [|discriminate].
  destruct (validateProductInfo pi) as [[]|e]; simpl; [|discriminate].
  destruct (if truthy (feeMode request) then _ else _) as [[]|e]; simpl;
    [|discriminate].
  destruct (truthy (successMessage request) && _); [discriminate|].
  reflexivity.
Qed.

(** C6, as the code has it. With the earlier checks passed, a redirect URL
    that is missing or empty is valid.  One that is not empty is valid if and
    only if the platform's parser accepts it and the string begins with
    "http://" or "https://"; every URL accepted this way parses as an
    absolute URL with scheme http or https.  A URL that is refused raises the
    redirect error, and [createLink] throws it with no request sent. *)
Theorem redirectUrl_rule (T : Type) (URL_parses : jsstring -> bool)
    (network : HttpRequest -> Settled T) (request : CreateLinkRequest)
    (H : validateCreateLinkRequest URL_parses (withRedirectUrl request None)
         = Return tt) :
  (redirectUrl request = None \/ redirectUrl request = Some [] ->
   validateCreateLinkRequest URL_parses request = Return tt)
  /\ (forall u, redirectUrl request = Some u -> u <> [] ->
      (validateCreateLinkRequest URL_parses request = Return tt <->
       URL_parses u = true
       /\ (startsWith u (js "http://") = true
           \/ startsWith u (js "https://") = true))
      /\ (validateCreateLinkRequest URL_parses request = Return tt ->
          parsesAsHttpUrl URL_parses u)
      /\ (validateCreateLinkRequest URL_parses request <> Return tt ->
          raises (validateCreateLinkRequest URL_parses request) MSG_REDIRECT_URL
          /\ createLink URL_parses network request
             = ([], Throw (PlainError (new_Error MSG_REDIRECT_URL))))).
Proof.
  rewrite (validateCreateLinkRequest_redirectUrl _ _ H). split.
  - intros [->| ->]; reflexivity.
  - intros u E N.
    pose proof (createLink_invalid URL_parses network request
                  (new_Error MSG_REDIRECT_URL)) as C.
    rewrite (validateCreateLinkRequest_redirectUrl _ _ H) in C.
    rewrite E in *. destruct u as [|c u]; [congruence|]. simpl in *.
    pose proof (isValidUrl_iff URL_parses (c :: u)) as V.
    pose proof (isValidUrl_parses URL_parses (c :: u)) as P.
    destruct (isValidUrl URL_parses (c :: u)); simpl in *.
    + split; [tauto|]. split; [intros _; now apply P|]. congruence.
    + split; [split; [discriminate | intros A; apply V in A; discriminate A]|].
      split; [discriminate|]. intros _. split; [reflexivity | now apply C].
Qed.

Lemma redirectUrl_rule_witness :
  validateCreateLinkRequest (fun _ => true)
    (withRedirectUrl (bookRequest None (Some (js "ftp://files.example")))
                     None)
  = Return tt
  /\ createLink (fun _ => true) answersInsufficientBalance
       (bookRequest None (Some (js "ftp://files.example")))
     = ([], Throw (PlainError (new_Error MSG_REDIRECT_URL))).
Proof.
  split; [reflexivity|].
  destruct (redirectUrl_rule unit (fun _ => true) answersInsufficientBalance
              (bookRequest None (Some (js "ftp://files.example"))) eq_refl)
    as [_ R].
  destruct (R (js "ftp://files.example") eq_refl) as [_ [_ F]];
    [discriminate|].
  apply F. discriminate.
Defined.

(** The empty string passes as redirect URL whatever the parser does, and it
    is no absolute URL: it has no scheme. *)
Lemma empty_redirectUrl_accepted :
  (forall URL_parses,
      validateCreateLinkRequest URL_parses (bookRequest None (Some []))
      = Return tt)
  /\ URL_scheme [] = None
  /\ (forall URL_parses, ~ parsesAsHttpUrl URL_parses []).
Proof.
  split; [reflexivity|]. split; [reflexivity|].
  intros URL_parses [_ [H|H]]; discriminate H.
Qed.

(** A URL whose scheme is written in capitals has scheme http for the parser
    and is refused all the same, [startsWith] being case sensitive. *)
Lemma uppercase_scheme_refused :
  forall URL_parses,
    URL_scheme (js "HTTP://example.com") = Some (js "http")
    /\ raises (validateCreateLinkRequest URL_parses
                 (bookRequest None (Some (js "HTTP://example.com"))))
              MSG_REDIRECT_URL.
Proof.
  intros URL_parses. split; [reflexivity|].
  unfold raises, validateCreateLinkRequest, isValidUrl. simpl.
  destruct (URL_parses _); reflexivity.
Qed.

(** ** Runs of the validator *)

Example amount_499 :
  validateProductInfo
    {| title := Some (js "Book"); amount := num 499; description := None |}
  = Throw (new_Error (js "Amount must be at least 500 DZD")).
Proof. reflexivity. Qed.

Example amount_500001 :
  validateProductInfo
    {| title := Some (js "Book"); amount := num 500001; description := None |}
  = Throw (new_Error (js "Amount must not exceed 500,000 DZD")).
Proof. reflexivity. Qed.

Example amount_with_decimals :
  validateProductInfo
    {| title := Some (js "Book"); amount := Finite (1001 # 2);
       description := None |}
  = Throw (new_Error (js "Amount must be a whole number (no decimals)")).
Proof. reflexivity. Qed.

Example amount_NaN :
  validateProductInfo
    {| title := Some (js "Book"); amount := NaN; description := None |}
  = Throw (new_Error (js "Amount must be a whole number (no decimals)")).
Proof. reflexivity. Qed.

Example title_of_spaces :
  validateProductInfo
    {| title := Some (js "   "); amount := num 1000; description := None |}
  = Throw (new_Error (js "Product title is required")).
Proof. reflexivity. Qed.

Example feeMode_unknown :
  validateCreateLinkRequest (fun _ => true)
    (bookRequest (Some (js "MERCHANT_FEE")) None)
  = Throw (new_Error
             (js "Invalid fee mode. Must be one of: NO_FEE, SPLIT_FEE, CUSTOMER_FEE")).
Proof. reflexivity. Qed.

Example checkPayment_blank :
  checkPayment answersInsufficientBalance (js "  ")
  = ([], Throw (PlainError (new_Error (js "Payment reference is required")))).
Proof. reflexivity. Qed.

(** ** The validator, rule by rule *)

Lemma longerThan_iff (n : nat) (v : option jsstring) :
  truthy v && (n <? length (str v)) = true <-> longerThan n v.
Proof.
  unfold longerThan. rewrite andb_true_iff, Nat.ltb_lt. split.
  - intros [Tr L]. destruct v as [s|]; [|discriminate Tr]. now exists s.
  - intros [s [-> L]]. split; [|exact L].
    destruct s; [simpl in L; lia | reflexivity].
Qed.

Lemma validateProductInfo_after_amount pi :
  titleOk pi -> integerInRange (amount pi) ->
  validateProductInfo pi =
    (when truthy (description pi) && (1000 <? length (str (description pi)))
     throw new_Error MSG_DESCRIPTION_TOO_LONG ;;
     Return tt).
Proof.
  intros HT [z [HZ R]]. apply titleOk_iff in HT as [B L].
  rewrite (validateProductInfo_after_title _ B L).
  assert (I : Number_isInteger (amount pi) = true)
    by (apply Number_isInteger_spec; now exists z).
  rewrite I, (lt_integer _ _ 500 HZ), (gt_integer _ _ 500000 HZ). simpl.
  assert (S : (z <? 500)%Z = false) by (apply Z.ltb_ge; lia).
  assert (G : (500000 <? z)%Z = false) by (apply Z.ltb_ge; lia).
  now rewrite S, G.
Qed.

(** The description check is reached only with title and amount in order. *)
Lemma reaches_description pi m :
  raises (validateProductInfo pi) m ->
  m = MSG_DESCRIPTION_TOO_LONG ->
  titleOk pi /\ integerInRange (amount pi).
Proof.
  intros H ->.
  assert (HT : ~ titleError (validateProductInfo pi)).
  { intros [A|A]; pose proof (raises_unique _ _ _ H A) as E;
      vm_compute in E; discriminate E. }
  split; [now apply titleOk_no_titleError|].
  apply (amount_passes_iff pi HT).
  intros [A|[A|A]]; pose proof (raises_unique _ _ _ H A) as E;
    vm_compute in E; discriminate E.
Qed.

(** X1. [validateProductInfo] returns if and only if the three rules hold: the
    title is there, not blank and at most 200 long; the amount is an integer
    from 500 to 500000; the description, when there is one, is at most 1000
    long. *)
Theorem validateProductInfo_passes_iff (pi : ProductInfo) :
  validateProductInfo pi = Return tt <->
  titleOk pi /\ integerInRange (amount pi)
  /\ (forall d, description pi = Some d -> length d <= 1000).
Proof.
  split.
  - intros H.
    assert (HT : ~ titleError (validateProductInfo pi))
      by (rewrite H; intros [A|A]; discriminate A).
    assert (HA : integerInRange (amount pi)).
    { apply (amount_passes_iff pi HT). rewrite H.
      intros [A|[A|A]]; discriminate A. }
    apply titleOk_no_titleError in HT.
    split; [exact HT|]. split; [exact HA|].
    intros d E. rewrite (validateProductInfo_after_amount pi HT HA) in H.
    destruct (Nat.le_gt_cases (length d) 1000) as [L|L]; [exact L|].
    assert (C : longerThan 1000 (description pi)) by now exists d.
    apply longerThan_iff in C. rewrite C in H. discriminate H.
  - intros [HT [HA HD]].
    rewrite (validateProductInfo_after_amount pi HT HA).
    destruct (truthy (description pi) && _) eqn:C; [|reflexivity].
    apply longerThan_iff in C as [d [E L]]. specialize (HD d E). lia.
Qed.

(** X2. The description error is raised if and only if title and amount are in
    order and the description is longer than 1000 code units; a missing or
    shorter description never raises it. *)
Theorem description_too_long_iff (pi : ProductInfo) :
  raises (validateProductInfo pi) MSG_DESCRIPTION_TOO_LONG <->
  titleOk pi /\ integerInRange (amount pi)
  /\ longerThan 1000 (description pi).
Proof.
  split.
  - intros H. destruct (reaches_description pi _ H eq_refl) as [HT HA].
    split; [exact HT|]. split; [exact HA|].
    rewrite (validateProductInfo_after_amount pi HT HA) in H.
    apply longerThan_iff.
    destruct (truthy (description pi) && _); [reflexivity | discriminate H].
  - intros [HT [HA HD]].
    rewrite (validateProductInfo_after_amount pi HT HA).
    apply longerThan_iff in HD. rewrite HD. reflexivity.
Qed.

(** [validateFeeMode] returns exactly on the three fee modes, compared as
    strings (so in the case they are written), and throws the membership
    error, which names the three, on every other string. *)
Theorem validateFeeMode_passes_iff (f : jsstring) :
  (validateFeeMode f = Return tt <->
   f = js "NO_FEE" \/ f = js "SPLIT_FEE" \/ f = js "CUSTOMER_FEE")
  /\ (validateFeeMode f <> Return tt ->
      raises (validateFeeMode f)
        (js "Invalid fee mode. Must be one of: NO_FEE, SPLIT_FEE, CUSTOMER_FEE")).
Proof.
  unfold validateFeeMode.
  destruct (Array_includes validFeeModes f) eqn:A; simpl.
  - apply Array_includes_In in A. split; [|congruence].
    split; [intros _ | reflexivity].
    destruct A as [<-|[<-|[<-|[]]]]; tauto.
  - split; [|reflexivity]. split; [discriminate|].
    intros H. assert (I : In f validFeeModes).
    { destruct H as [->|[->| ->]]; simpl; tauto. }
    apply Array_includes_In in I. congruence.
Qed.

Lemma feeModeRefused_iff request :
  feeModeRefused request = true <->
  exists f, feeMode request = Some f /\ f <> [] /\ ~ In f validFeeModes.
Proof.
  unfold feeModeRefused. rewrite andb_true_iff, negb_true_iff. split.
  - intros [Tr A]. destruct (feeMode request) as [[|c f]|]; try discriminate Tr.
    exists (c :: f). split; [reflexivity|]. split; [discriminate|].
    intros I. apply Array_includes_In in I. cbn [str] in A. congruence.
  - intros [f [-> [N I]]]. destruct f as [|c f]; [congruence|].
    split; [reflexivity|]. cbn [str].
    destruct (Array_includes validFeeModes (c :: f)) eqn:A; [|reflexivity].
    apply Array_includes_In in A. contradiction.
Qed.

Lemma feeModeOk_iff request :
  feeModeRefused request = false <-> feeModeOk request.
Proof.
  unfold feeModeOk. split.
  - intros R f E. destruct f as [|c f]; [now left | right].
    unfold feeModeRefused in R. rewrite E in R. simpl in R.
    apply negb_false_iff in R. now apply Array_includes_In.
  - intros H. destruct (feeModeRefused request) eqn:R; [|reflexivity].
    apply feeModeRefused_iff in R as [f [E [N I]]].
    destruct (H f E); contradiction.
Qed.

(** What is left of [validateCreateLinkRequest] once the product info has
    passed. *)
Lemma validateCreateLinkRequest_after_productInfo URL_parses request pi :
  productInfo request = Some pi ->
  validateProductInfo pi = Return tt ->
  validateCreateLinkRequest URL_parses request =
    (when feeModeRefused request
     throw new_Error MSG_INVALID_FEE_MODE ;;
     when truthy (successMessage request)
          && (500 <? length (str (successMessage request)))
     throw new_Error MSG_SUCCESS_MESSAGE_TOO_LONG ;;
     when truthy (redirectUrl request)
          && negb (isValidUrl URL_parses (str (redirectUrl request)))
     throw new_Error MSG_REDIRECT_URL ;;
     Return tt).
Proof.
  intros E V. unfold validateCreateLinkRequest, feeModeRefused, validateFeeMode.
  rewrite E, V. cbn [bind].
  destruct (truthy (feeMode request)); [|reflexivity].
  destruct (Array_includes validFeeModes (str (feeMode request))); reflexivity.
Qed.

Lemma validateCreateLinkRequest_productInfo_throws URL_parses request pi e :
  productInfo request = Some pi ->
  validateProductInfo pi = Throw e ->
  validateCreateLinkRequest URL_parses request = Throw e.
Proof.
  intros E V. unfold validateCreateLinkRequest. rewrite E, V. reflexivity.
Qed.

Lemma validateProductInfo_messages pi e :
  validateProductInfo pi = Throw e ->
  e = new_Error (Error_message e)
  /\ In (Error_message e)
        [MSG_TITLE_REQUIRED; MSG_TITLE_TOO_LONG; MSG_AMOUNT_NOT_INTEGER;
         MSG_AMOUNT_TOO_SMALL; MSG_AMOUNT_TOO_LARGE; MSG_DESCRIPTION_TOO_LONG].
Proof.
  unfold validateProductInfo. intros H.
  repeat match type of H with
         | context [if ?c then _ else _] => destruct c
         end;
    inversion H; subst e; simpl; tauto.
Qed.

Lemma validationMessages_NoDup : NoDup validationMessages.
Proof.
  unfold validationMessages.
  repeat (constructor;
          [simpl; intros H;
           repeat (destruct H as [H|H];
                   [vm_compute in H; discriminate H|]); exact H|]).
  constructor.
Qed.

(** X8. Whatever [validateCreateLinkRequest]
    throws is a plain [Error] with one of ten messages, one per rule, and the
    ten are pairwise different, so the message tells the violated rule. *)
Theorem validation_errors_closed :
  (forall URL_parses request e,
      validateCreateLinkRequest URL_parses request = Throw e ->
      e = new_Error (Error_message e)
      /\ In (Error_message e) validationMessages)
  /\ NoDup validationMessages
  /\ length validationMessages = 10.
Proof.
  split; [|split; [exact validationMessages_NoDup | reflexivity]].
  intros URL_parses request e H.
  destruct (productInfo request) as [pi|] eqn:E.
  - destruct (validateProductInfo pi) as [[]|e'] eqn:V.
    + rewrite (validateCreateLinkRequest_after_productInfo _ _ _ E V) in H.
      repeat match type of H with
             | context [if ?c then _ else _] => destruct c
             end;
        inversion H; subst e; simpl; tauto.
    + rewrite (validateCreateLinkRequest_productInfo_throws _ _ _ _ E V) in H.
      inversion H; subst e'.
      destruct (validateProductInfo_messages _ _ V) as [Eta I].
      split; [exact Eta|]. simpl in *. tauto.
  - unfold validateCreateLinkRequest in H. rewrite E in H.
    inversion H; subst e. simpl. tauto.
Qed.

Ltac not_among I :=
  simpl in I;
  repeat (destruct I as [I|I]; [vm_compute in I; discriminate I|]);
  contradiction I.

Ltac wrong_message H :=
  let E := fresh in inversion H as [E]; vm_compute in E; discriminate E.

(** A request-level message is not raised by the product info. *)
Lemma productInfo_raises_own pi m :
  raises (validateProductInfo pi) m ->
  In m [MSG_PRODUCT_INFO_REQUIRED; MSG_INVALID_FEE_MODE;
        MSG_SUCCESS_MESSAGE_TOO_LONG; MSG_REDIRECT_URL] -> False.
Proof.
  intros H I. destruct (validateProductInfo_messages _ _ H) as [_ J].
  simpl in I, J.
  repeat (destruct I as [I|I]; [subst m; not_among J|]). contradiction I.
Qed.

(** X3. [validateCreateLinkRequest] returns if and only if every rule holds: the
    product info is there and passes [validateProductInfo]; the fee mode is
    missing, empty or one of the three; the success message, when there is
    one, is at most 500 long; the redirect URL is missing, empty or accepted
    by [isValidUrl]. *)
Theorem validateCreateLinkRequest_passes_iff
    (URL_parses : jsstring -> bool) (request : CreateLinkRequest) :
  validateCreateLinkRequest URL_parses request = Return tt <->
  (exists pi, productInfo request = Some pi
              /\ validateProductInfo pi = Return tt)
  /\ feeModeOk request
  /\ (forall m, successMessage request = Some m -> length m <= 500)
  /\ (forall u, redirectUrl request = Some u ->
      u = [] \/ isValidUrl URL_parses u = true).
Proof.
  split.
  - intros H. destruct (productInfo request) as [pi|] eqn:E;
      [|unfold validateCreateLinkRequest in H; rewrite E in H; discriminate H].
    destruct (validateProductInfo pi) as [[]|e] eqn:V;
      [|rewrite (validateCreateLinkRequest_productInfo_throws _ _ _ _ E V) in H;
        discriminate H].
    rewrite (validateCreateLinkRequest_after_productInfo _ _ _ E V) in H.
    destruct (feeModeRefused request) eqn:F; [discriminate H|].
    destruct (truthy (successMessage request) && _) eqn:S; [discriminate H|].
    destruct (truthy (redirectUrl request) && _) eqn:R; [discriminate H|].
    split; [now exists pi|]. split; [now apply feeModeOk_iff|]. split.
    + intros m Em. destruct (Nat.le_gt_cases (length m) 500) as [L|L];
        [exact L|].
      assert (C : longerThan 500 (successMessage request)) by now exists m.
      apply longerThan_iff in C. congruence.
    + intros u Eu. rewrite Eu in R. destruct u as [|c u]; [now left | right].
      simpl in R. now apply negb_false_iff in R.
  - intros [[pi [E V]] [F [S R]]].
    rewrite (validateCreateLinkRequest_after_productInfo _ _ _ E V).
    apply feeModeOk_iff in F. rewrite F.
    destruct (truthy (successMessage request) && _) eqn:C.
    { apply longerThan_iff in C as [m [Em L]]. specialize (S m Em). lia. }
    destruct (redirectUrl request) as [[|c u]|]; simpl; try reflexivity.
    destruct (R (c :: u) eq_refl) as [N|V']; [discriminate N|].
    now rewrite V'.
Qed.

(** X4. "Product info is required" is raised if and only if the request has no
    product info; then it is raised whatever the other fields hold. *)
Theorem productInfo_required_iff
    (URL_parses : jsstring -> bool) (request : CreateLinkRequest) :
  raises (validateCreateLinkRequest URL_parses request)
         MSG_PRODUCT_INFO_REQUIRED
  <-> productInfo request = None.
Proof.
  split.
  - intros H. destruct (productInfo request) as [pi|] eqn:E; [|reflexivity].
    exfalso. destruct (validateProductInfo pi) as [[]|e] eqn:V.
    + rewrite (validateCreateLinkRequest_after_productInfo _ _ _ E V) in H.
      other_message H.
    + rewrite (validateCreateLinkRequest_productInfo_throws _ _ _ _ E V) in H.
      inversion H; subst e.
      apply (productInfo_raises_own pi _ V). simpl; tauto.
  - intros E. unfold raises, validateCreateLinkRequest. now rewrite E.
Qed.

(** X5. The membership error is raised if and only if the product info has
    passed and the fee mode is a non-empty string that is none of the three;
    success message and redirect URL have no say in it. *)
Theorem invalid_feeMode_iff
    (URL_parses : jsstring -> bool) (request : CreateLinkRequest) :
  raises (validateCreateLinkRequest URL_parses request) MSG_INVALID_FEE_MODE
  <->
  (exists pi, productInfo request = Some pi
              /\ validateProductInfo pi = Return tt)
  /\ (exists f, feeMode request = Some f /\ f <> []
                /\ ~ In f validFeeModes).
Proof.
  split.
  - intros H. destruct (productInfo request) as [pi|] eqn:E;
      [|unfold validateCreateLinkRequest in H; rewrite E in H;
        wrong_message H].
    destruct (validateProductInfo pi) as [[]|e] eqn:V.
    + split; [now exists pi|]. apply feeModeRefused_iff.
      rewrite (validateCreateLinkRequest_after_productInfo _ _ _ E V) in H.
      destruct (feeModeRefused request); [reflexivity|]. other_message H.
    + rewrite (validateCreateLinkRequest_productInfo_throws _ _ _ _ E V) in H.
      inversion H; subst e. exfalso.
      apply (productInfo_raises_own pi _ V). simpl; tauto.
  - intros [[pi [E V]] F]. apply feeModeRefused_iff in F.
    rewrite (validateCreateLinkRequest_after_productInfo _ _ _ E V), F.
    reflexivity.
Qed.

(** X6. The success message error is raised if and only if product info and fee
    mode have passed and the success message is longer than 500 code units;
    the redirect URL has no say in it. *)
Theorem successMessage_too_long_iff
    (URL_parses : jsstring -> bool) (request : CreateLinkRequest) :
  raises (validateCreateLinkRequest URL_parses request)
         MSG_SUCCESS_MESSAGE_TOO_LONG
  <->
  (exists pi, productInfo request = Some pi
              /\ validateProductInfo pi = Return tt)
  /\ feeModeOk request
  /\ longerThan 500 (successMessage request).
Proof.
  split.
  - intros H. destruct (productInfo request) as [pi|] eqn:E;
      [|unfold validateCreateLinkRequest in H; rewrite E in H;
        wrong_message H].
    destruct (validateProductInfo pi) as [[]|e] eqn:V.
    + split; [now exists pi|].
      rewrite (validateCreateLinkRequest_after_productInfo _ _ _ E V) in H.
      destruct (feeModeRefused request) eqn:F; [wrong_message H|].
      split; [now apply feeModeOk_iff|]. apply longerThan_iff.
      destruct (truthy (successMessage request) && _); [reflexivity|].
      other_message H.
    + rewrite (validateCreateLinkRequest_productInfo_throws _ _ _ _ E V) in H.
      inversion H; subst e. exfalso.
      apply (productInfo_raises_own pi _ V). simpl; tauto.
  - intros [[pi [E V]] [F S]]. apply feeModeOk_iff in F.
    apply longerThan_iff in S.
    rewrite (validateCreateLinkRequest_after_productInfo _ _ _ E V), F, S.
    reflexivity.
Qed.

(** ** The classifier and the client, further *)

(** X9. Kind and status code of a classified failure always agree: the
    exception is a [ValidationException] exactly when its status code is 400,
    and so on for 403, 404 and 410; it is a plain [ApiException] exactly when
    its status code is none of the four.  The status code is always set. *)
Theorem kind_agrees_with_statusCode :
  forall T (error : AxiosError.t T),
    let e := handleException error in
    (OCPayException.kind e = ValidationException <->
     OCPayException.getStatusCode e = Some 400%Z)
    /\ (OCPayException.kind e = UnauthorizedException <->
        OCPayException.getStatusCode e = Some 403%Z)
    /\ (OCPayException.kind e = NotFoundException <->
        OCPayException.getStatusCode e = Some 404%Z)
    /\ (OCPayException.kind e = PaymentExpiredException <->
        OCPayException.getStatusCode e = Some 410%Z)
    /\ (OCPayException.kind e = ApiException <->
        exists s, OCPayException.getStatusCode e = Some s
                  /\ s <> 400%Z /\ s <> 403%Z /\ s <> 404%Z /\ s <> 410%Z).
Proof.
  intros T error e. subst e. unfold OCPayException.getStatusCode.
  destruct (handleException_fields error) as [_ [S _]].
  rewrite S, handleException_kind. cbv zeta.
  generalize (or_status (observedStatus error) 0). intros s.
  destruct (Z.eqb_spec s 400) as [->|N0];
    [repeat split; try discriminate; try (intros _; reflexivity);
     try (intros [s' [E N]]; inversion E; subst s'; exfalso; tauto)|].
  destruct (Z.eqb_spec s 403) as [->|N3];
    [repeat split; try discriminate; try (intros _; reflexivity);
     try (intros [s' [E N]]; inversion E; subst s'; exfalso; tauto)|].
  destruct (Z.eqb_spec s 404) as [->|N4];
    [repeat split; try discriminate; try (intros _; reflexivity);
     try (intros [s' [E N]]; inversion E; subst s'; exfalso; tauto)|].
  destruct (Z.eqb_spec s 410) as [->|N10];
    [repeat split; try discriminate; try (intros _; reflexivity);
     try (intros [s' [E N]]; inversion E; subst s'; exfalso; tauto)|].
  repeat split; try discriminate; try congruence.
  intros _. exists s. tauto.
Qed.

(** X10. The status a special exception class takes when none is given is the
    status the classifier maps to that class; a plain [ApiException] built
    without a status has none. *)
Theorem default_status_is_classified :
  forall T (message : jsstring) (requestId : option jsstring)
         (errorData : option (ApiResponse.t T)),
    (forall (make : jsstring -> option Z -> option jsstring ->
                    option (ApiResponse.t T) -> OCPayException.t T),
        In make [new_ValidationException; new_UnauthorizedException;
                 new_NotFoundException; new_PaymentExpiredException] ->
        exists s,
          OCPayException.getStatusCode (make message None requestId errorData)
          = Some s
          /\ forall error : AxiosError.t T,
              observedStatus error = Some s ->
              OCPayException.kind (handleException error)
              = OCPayException.kind (make message None requestId errorData))
    /\ OCPayException.getStatusCode
         (new_ApiException message None requestId errorData) = None.
Proof.
  intros T message requestId errorData. split; [|reflexivity].
  intros make [<-|[<-|[<-|[<-|[]]]]].
  - exists 400%Z. split; [reflexivity|]. intros error H.
    rewrite handleException_kind. simpl. now rewrite H.
  - exists 403%Z. split; [reflexivity|]. intros error H.
    rewrite handleException_kind. simpl. now rewrite H.
  - exists 404%Z. split; [reflexivity|]. intros error H.
    rewrite handleException_kind. simpl. now rewrite H.
  - exists 410%Z. split; [reflexivity|]. intros error H.
    rewrite handleException_kind. simpl. now rewrite H.
Qed.

Lemma isFalse_iff (v : flag) : isFalse v = true <-> v = Boolean false.
Proof.
  destruct v as [[|]|]; simpl; split; try discriminate; reflexivity.
Qed.

Lemma isFalse_false_iff (v : flag) : isFalse v = false <-> v <> Boolean false.
Proof.
  destruct v as [[|]|]; simpl; split; try discriminate; try reflexivity;
    intros H; congruence.
Qed.

(** What [handleResponse] returns it returns unchanged, and it returns
    exactly the bodies that are there and whose flag is not [false]. *)
Lemma handleResponse_returns_iff {T} (d : option (ApiResponse.t T)) r :
  handleResponse d = Return r <->
  d = Some r /\ ApiResponse.success r <> Boolean false.
Proof.
  unfold handleResponse. destruct d as [b|].
  - destruct (isFalse (ApiResponse.success b)) eqn:F.
    + apply isFalse_iff in F. split; [discriminate|].
      intros [E N]. inversion E. subst. contradiction.
    + apply isFalse_false_iff in F. split.
      * intros H. inversion H. subst. tauto.
      * intros [E _]. inversion E. reflexivity.
  - split; [discriminate | intros [E _]; discriminate E].
Qed.

Lemma handleResponse_TypeError_iff {T} (d : option (ApiResponse.t T)) :
  handleResponse d = Throw TypeError <-> d = None.
Proof.
  unfold handleResponse. destruct d as [b|]; [|tauto].
  destruct (isFalse (ApiResponse.success b)); split; discriminate.
Qed.

Lemma handleResponse_throws_iff {T} (d : option (ApiResponse.t T)) e :
  handleResponse d = Throw (OCPayError e) <->
  exists b, d = Some b /\ ApiResponse.success b = Boolean false
            /\ e = logicalFailure b.
Proof.
  unfold handleResponse. destruct d as [b|].
  - destruct (isFalse (ApiResponse.success b)) eqn:F.
    + apply isFalse_iff in F. split.
      * intros H. inversion H. exists b. tauto.
      * intros [b' [E [_ ->]]]. inversion E. reflexivity.
    + apply isFalse_false_iff in F. split; [discriminate|].
      intros [b' [E [S _]]]. inversion E. subst. contradiction.
  - split; [discriminate | intros [b [E _]]; discriminate E].
Qed.

(** How a settled request completes the call of [get] or [post]. *)
Lemma settle_returns_iff {T} (s : Settled T) r :
  settle s = Return r <->
  exists status,
    s = Fulfilled {| AxiosResponse.status := status;
                     AxiosResponse.data := Some r |}
    /\ ApiResponse.success r <> Boolean false.
Proof.
  unfold settle. destruct s as [[status d]|error]; simpl.
  - rewrite handleResponse_returns_iff. split.
    + intros [-> N]. now exists status.
    + intros [status' [E N]]. inversion E. tauto.
  - split; [discriminate | intros [status [E _]]; discriminate E].
Qed.

Lemma settle_TypeError_iff {T} (s : Settled T) :
  settle s = Throw TypeError <->
  exists status,
    s = Fulfilled {| AxiosResponse.status := status;
                     AxiosResponse.data := None |}.
Proof.
  unfold settle. destruct s as [[status d]|error]; simpl.
  - rewrite handleResponse_TypeError_iff. split.
    + intros ->. now exists status.
    + intros [status' E]. inversion E. reflexivity.
  - split; [discriminate | intros [status E]; discriminate E].
Qed.

Lemma settle_throws_iff {T} (s : Settled T) e :
  settle s = Throw (OCPayError e) <->
  (exists error, s = Rejected error /\ e = handleException error)
  \/ (exists status b,
         s = Fulfilled {| AxiosResponse.status := status;
                          AxiosResponse.data := Some b |}
         /\ ApiResponse.success b = Boolean false
         /\ e = logicalFailure b).
Proof.
  unfold settle. destruct s as [[status d]|error]; simpl.
  - rewrite handleResponse_throws_iff. split.
    + intros [b [-> [S ->]]]. right. now exists status, b.
    + intros [[error [E _]]|[status' [b [E [S ->]]]]]; [discriminate E|].
      inversion E. exists b. tauto.
  - split.
    + intros H. inversion H. left. now exists error.
    + intros [[error' [E ->]]|[status [b [E _]]]]; [|discriminate E].
      inversion E. reflexivity.
Qed.

Lemma settle_not_plain {T} (s : Settled T) e :
  settle s <> Throw (PlainError e).
Proof.
  unfold settle. destruct s as [response|error];
    [apply handleResponse_not_plain | discriminate].
Qed.

(** X11. A call of [get] or [post] hands the transport exactly one request,
    whatever the outcome: it never retries.  It returns an envelope if and
    only if the transport fulfilled the request with a body that is there and
    whose [success] is not the boolean [false] (a missing flag or one that
    is no boolean counts as success), and the envelope returned is that body
    unchanged.  It throws the run time's [TypeError] if and only if the
    request was fulfilled with a body that is [null] or [undefined].  It
    never throws the plain [Error] of the validators. *)
Theorem client_single_request :
  forall T (network : HttpRequest -> Settled T) (endpoint : jsstring)
         (data : CreateLinkRequest),
    let get := {| method := GET; url := endpoint; body := None |} in
    let post := {| method := POST; url := endpoint; body := Some data |} in
    fst (Client_get network endpoint) = [get]
    /\ fst (Client_post network endpoint data) = [post]
    /\ (forall r, snd (Client_get network endpoint) = Return r <->
        exists status,
          network get = Fulfilled {| AxiosResponse.status := status;
                                     AxiosResponse.data := Some r |}
          /\ ApiResponse.success r <> Boolean false)
    /\ (forall r, snd (Client_post network endpoint data) = Return r <->
        exists status,
          network post = Fulfilled {| AxiosResponse.status := status;
                                      AxiosResponse.data := Some r |}
          /\ ApiResponse.success r <> Boolean false)
    /\ (snd (Client_get network endpoint) = Throw TypeError <->
        exists status,
          network get = Fulfilled {| AxiosResponse.status := status;
                                     AxiosResponse.data := None |})
    /\ (snd (Client_post network endpoint data) = Throw TypeError <->
        exists status,
          network post = Fulfilled {| AxiosResponse.status := status;
                                      AxiosResponse.data := None |})
    /\ (forall e, snd (Client_get network endpoint) <> Throw (PlainError e))
    /\ (forall e, snd (Client_post network endpoint data)
                  <> Throw (PlainError e)).
Proof.
  intros T network endpoint data get post.
  rewrite Client_get_settled, Client_post_settled. fold get post.
  fold (settle (network get)) (settle (network post)). simpl.
  split; [reflexivity|]. split; [reflexivity|].
  split; [intros r; apply settle_returns_iff|].
  split; [intros r; apply settle_returns_iff|].
  split; [apply settle_TypeError_iff|].
  split; [apply settle_TypeError_iff|].
  split; intros e; apply settle_not_plain.
Qed.

(** ** The service, further *)

(** [return response.data] after a call of the client. *)
Lemma payload_returns_iff {T} (c : completion (Thrown T) (ApiResponse.t T))
    (payload : T) :
  bind c (fun r => Return (ApiResponse.data r)) = Return payload <->
  exists r, c = Return r /\ payload = ApiResponse.data r.
Proof.
  destruct c as [r|e]; simpl.
  - split; [intros H; inversion H; now exists r|].
    intros [r' [E ->]]. inversion E. reflexivity.
  - split; [discriminate | intros [r [E _]]; discriminate E].
Qed.

Lemma payload_throws_iff {T} (c : completion (Thrown T) (ApiResponse.t T))
    (e : Thrown T) :
  bind c (fun r => Return (ApiResponse.data r)) = Throw e <-> c = Throw e.
Proof.
  destruct c as [r|e']; simpl; split; try discriminate; congruence.
Qed.

Lemma createLink_settled {T} URL_parses (network : HttpRequest -> Settled T)
    request :
  validateCreateLinkRequest URL_parses request = Return tt ->
  let post := {| method := POST; url := ENDPOINT_CREATE_LINK;
                 body := Some (requestData request) |} in
  createLink URL_parses network request =
  ([post],
   bind (settle (network post)) (fun r => Return (ApiResponse.data r))).
Proof.
  intros H post. rewrite (createLink_valid _ _ _ H), Client_post_settled.
  fold post. fold (settle (network post)). unfold await, ret.
  destruct (settle (network post)); reflexivity.
Qed.

Lemma validate_cases URL_parses request :
  validateCreateLinkRequest URL_parses request = Return tt
  \/ exists e, validateCreateLinkRequest URL_parses request = Throw e.
Proof.
  destruct (validateCreateLinkRequest URL_parses request) as [[]|e];
    [now left | right; now exists e].
Qed.

(** X12. [createLink] sends nothing if and only if validation fails, and then it
    throws the validator's plain [Error]; otherwise it sends exactly one
    request, a POST to the create-link endpoint.  The validator's plain
    [Error] is thrown for no other reason.  The one other error that is no
    API exception is the run time's [TypeError]: it is thrown if and only if
    validation passed and the POST, already sent, was fulfilled with a body
    that is [null] or [undefined]. *)
Theorem createLink_rejects_locally_iff :
  forall T (URL_parses : jsstring -> bool) (network : HttpRequest -> Settled T)
         (request : CreateLinkRequest),
    (fst (createLink URL_parses network request) = [] <->
     validateCreateLinkRequest URL_parses request <> Return tt)
    /\ (forall e,
           snd (createLink URL_parses network request) = Throw (PlainError e)
           <-> validateCreateLinkRequest URL_parses request = Throw e)
    /\ (forall e,
           validateCreateLinkRequest URL_parses request = Throw e ->
           createLink URL_parses network request = ([], Throw (PlainError e)))
    /\ (validateCreateLinkRequest URL_parses request = Return tt ->
        exists sent,
          fst (createLink URL_parses network request)
          = [{| method := POST; url := js "/v3/ocpay/createLink";
                body := Some sent |}])
    /\ (snd (createLink URL_parses network request) = Throw TypeError <->
        validateCreateLinkRequest URL_parses request = Return tt
        /\ exists sent status,
            fst (createLink URL_parses network request)
            = [{| method := POST; url := js "/v3/ocpay/createLink";
                  body := Some sent |}]
            /\ network {| method := POST; url := js "/v3/ocpay/createLink";
                          body := Some sent |}
               = Fulfilled {| AxiosResponse.status := status;
                              AxiosResponse.data := None |}).
Proof.
  intros T URL_parses network request.
  destruct (validate_cases URL_parses request) as [V|[e V]].
  - pose proof (createLink_settled URL_parses network request V) as C.
    cbv zeta in C. rewrite C, V. simpl.
    split; [split; [discriminate | congruence]|].
    split.
    { intros e. rewrite payload_throws_iff. split; [|discriminate].
      intros H. exfalso. exact (settle_not_plain _ _ H). }
    split; [discriminate|].
    split; [intros _; now exists (requestData request)|].
    rewrite payload_throws_iff, settle_TypeError_iff. split.
    + intros [status N]. split; [reflexivity|].
      now exists (requestData request), status.
    + intros [_ [sent [status [E N]]]]. inversion E. subst sent.
      now exists status.
  - rewrite (createLink_invalid _ network _ _ V), V. simpl.
    split; [split; [discriminate | reflexivity]|].
    split; [intros e'; split; congruence|].
    split; [congruence|].
    split; [discriminate|].
    split; [discriminate | intros [H _]; discriminate H].
Qed.

(** X13. [createLink] returns a payload if and only if the request passes
    validation and the transport fulfils the POST with a body that is there
    and whose [success] is not the boolean [false] (true, missing, or no
    boolean); the payload is what [data] of that body reads as.  An API
    exception is thrown only after the request was sent, and it is the
    classifier's exception for a rejection or the logical-failure exception
    for a body whose [success] is [false]. *)
Theorem createLink_returns_iff :
  forall T (URL_parses : jsstring -> bool) (network : HttpRequest -> Settled T)
         (request : CreateLinkRequest),
    let post := {| method := POST; url := ENDPOINT_CREATE_LINK;
                   body := Some (requestData request) |} in
    (forall payload,
        snd (createLink URL_parses network request) = Return payload <->
        validateCreateLinkRequest URL_parses request = Return tt
        /\ exists status b,
            network post = Fulfilled {| AxiosResponse.status := status;
                                        AxiosResponse.data := Some b |}
            /\ ApiResponse.success b <> Boolean false
            /\ payload = ApiResponse.data b)
    /\ (forall e,
           snd (createLink URL_parses network request) = Throw (OCPayError e)
           <->
           validateCreateLinkRequest URL_parses request = Return tt
           /\ ((exists error, network post = Rejected error
                              /\ e = handleException error)
               \/ (exists status b,
                      network post
                      = Fulfilled {| AxiosResponse.status := status;
                                     AxiosResponse.data := Some b |}
                      /\ ApiResponse.success b = Boolean false
                      /\ e = logicalFailure b))).
Proof.
  intros T URL_parses network request post.
  destruct (validate_cases URL_parses request) as [V|[e V]].
  - pose proof (createLink_settled URL_parses network request V) as C.
    cbv zeta in C. fold post in C. rewrite C, V. simpl. split.
    + intros payload. rewrite payload_returns_iff. split.
      * intros [r [R ->]]. apply settle_returns_iff in R as [status [N S]].
        split; [reflexivity|]. now exists status, r.
      * intros [_ [status [b [N [S ->]]]]]. exists b. split; [|reflexivity].
        apply settle_returns_iff. now exists status.
    + intros e. rewrite payload_throws_iff, settle_throws_iff. tauto.
  - rewrite (createLink_invalid _ network _ _ V), V. simpl. split.
    + intros payload. split; [discriminate | intros [H _]; discriminate H].
    + intros e'. split; [discriminate | intros [H _]; discriminate H].
Qed.

Lemma requestData_feeMode request :
  feeModeOk request ->
  exists f, feeMode (requestData request) = Some f /\ In f validFeeModes
            /\ f <> [].
Proof.
  intros F. unfold requestData, or_else. simpl.
  destruct (feeMode request) as [[|c f]|] eqn:E; simpl.
  - exists FeeMode.NO_FEE. repeat split; [simpl; tauto | discriminate].
  - exists (c :: f). destruct (F _ E) as [N|I]; [discriminate N|].
    repeat split; [exact I | discriminate].
  - exists FeeMode.NO_FEE. repeat split; [simpl; tauto | discriminate].
Qed.

(** Validation passes exactly when no check fires. *)
Lemma validate_passes_checks URL_parses request :
  validateCreateLinkRequest URL_parses request = Return tt <->
  exists pi,
    productInfo request = Some pi
    /\ validateProductInfo pi = Return tt
    /\ feeModeRefused request = false
    /\ truthy (successMessage request)
       && (500 <? length (str (successMessage request))) = false
    /\ truthy (redirectUrl request)
       && negb (isValidUrl URL_parses (str (redirectUrl request))) = false.
Proof.
  split.
  - intros H. destruct (productInfo request) as [pi|] eqn:E;
      [|unfold validateCreateLinkRequest in H; rewrite E in H; discriminate H].
    destruct (validateProductInfo pi) as [[]|e] eqn:V;
      [|rewrite (validateCreateLinkRequest_productInfo_throws _ _ _ _ E V) in H;
        discriminate H].
    rewrite (validateCreateLinkRequest_after_productInfo _ _ _ E V) in H.
    exists pi.
    destruct (feeModeRefused request); [discriminate H|].
    destruct (truthy (successMessage request) && _); [discriminate H|].
    destruct (truthy (redirectUrl request) && _); [discriminate H|].
    now repeat split.
  - intros [pi [E [V [F [S R]]]]].
    rewrite (validateCreateLinkRequest_after_productInfo _ _ _ E V), F, S, R.
    reflexivity.
Qed.

(** X14. Whatever [createLink] sends would itself pass validation, and its fee
    mode is one of the three; sending the body that was sent sends the same
    body again. *)
Theorem sent_body_is_valid (T : Type) (URL_parses : jsstring -> bool)
    (network : HttpRequest -> Settled T) (request sent : CreateLinkRequest)
    (r : HttpRequest)
    (H : In r (fst (createLink URL_parses network request)))
    (B : body r = Some sent) :
  validateCreateLinkRequest URL_parses sent = Return tt
  /\ (exists f, feeMode sent = Some f /\ In f validFeeModes)
  /\ productInfo sent = productInfo request
  /\ fst (createLink URL_parses network sent)
     = fst (createLink URL_parses network request).
Proof.
  destruct (validate_cases URL_parses request) as [V|[e V]];
    [|rewrite (createLink_invalid _ network _ _ V) in H; contradiction H].
  rewrite (createLink_sent _ network _ V) in *.
  destruct H as [<-|[]]. simpl in B. inversion B. subst sent. clear B.
  pose proof V as P. apply validate_passes_checks in P
    as [pi [PI [VP [F [S R]]]]].
  destruct (requestData_feeMode request (proj1 (feeModeOk_iff request) F))
    as [f [E [I N]]].
  assert (V' : validateCreateLinkRequest URL_parses (requestData request)
               = Return tt).
  { apply validate_passes_checks. exists pi.
    split; [exact PI|]. split; [exact VP|].
    split; [|split; [exact S | exact R]].
    apply feeModeOk_iff. intros f' E'. rewrite E in E'. inversion E'.
    subst f'. now right. }
  split; [exact V'|]. split; [exists f; tauto|]. split; [reflexivity|].
  rewrite (createLink_sent _ network _ V'). do 3 f_equal.
  unfold requestData at 1. unfold withFeeMode. rewrite E.
  rewrite (or_else_present _ _ N). unfold requestData, withFeeMode in *.
  simpl in *. now rewrite <- E.
Qed.

Lemma sent_body_is_valid_witness :
  In {| method := POST; url := ENDPOINT_CREATE_LINK;
        body := Some (bookRequest (Some FeeMode.NO_FEE) None) |}
     (fst (createLink (fun _ => true) answersInsufficientBalance
             (bookRequest None None)))
  /\ validateCreateLinkRequest (fun _ => true)
       (bookRequest (Some FeeMode.NO_FEE) None) = Return tt.
Proof.
  assert (I : In {| method := POST; url := ENDPOINT_CREATE_LINK;
                    body := Some (bookRequest (Some FeeMode.NO_FEE) None) |}
                 (fst (createLink (fun _ => true) answersInsufficientBalance
                         (bookRequest None None))))
    by (left; reflexivity).
  split; [exact I|].
  exact (proj1 (sent_body_is_valid unit (fun _ => true)
                  answersInsufficientBalance (bookRequest None None)
                  (bookRequest (Some FeeMode.NO_FEE) None) _ I eq_refl)).
Defined.

Lemma checkPayment_settled {T} (network : HttpRequest -> Settled T) paymentRef :
  isBlank paymentRef = false ->
  let get := {| method := GET;
                url := js "/v3/ocpay/checkPayment/" ++ paymentRef;
                body := None |} in
  checkPayment network paymentRef =
  ([get],
   bind (settle (network get)) (fun r => Return (ApiResponse.data r))).
Proof.
  intros B get. unfold checkPayment.
  rewrite (isBlank_nonempty _ B), Client_get_settled.
  change (ENDPOINT_CHECK_PAYMENT ++ js "/" ++ paymentRef)
    with (js "/v3/ocpay/checkPayment/" ++ paymentRef).
  fold get. fold (settle (network get)). unfold await, ret.
  destruct (settle (network get)); reflexivity.
Qed.

Lemma checkPayment_blank_settled {T} (network : HttpRequest -> Settled T)
    paymentRef :
  isBlank paymentRef = true ->
  checkPayment network paymentRef
  = ([], Throw (PlainError (new_Error (js "Payment reference is required")))).
Proof.
  intros B. unfold checkPayment.
  rewrite (isBlank_rejected _ (or_intror B)). reflexivity.
Qed.

(** X15. Every request [checkPayment] sends is the only one of the call, a GET
    with no body, and its URL is "/v3/ocpay/checkPayment/" followed by the
    reference exactly as given (not trimmed, not encoded): the reference is
    what is left of the URL after the 23 code units of the prefix. *)
Theorem checkPayment_request (T : Type) (network : HttpRequest -> Settled T)
    (paymentRef : jsstring) (request : HttpRequest)
    (H : In request (fst (checkPayment network paymentRef))) :
  fst (checkPayment network paymentRef) = [request]
  /\ isBlank paymentRef = false
  /\ method request = GET
  /\ body request = None
  /\ url request = js "/v3/ocpay/checkPayment/" ++ paymentRef
  /\ skipn 23 (url request) = paymentRef.
Proof.
  destruct (isBlank paymentRef) eqn:B;
    [rewrite (checkPayment_blank_settled network _ B) in H; contradiction H|].
  pose proof (checkPayment_settled network paymentRef B) as C.
  cbv zeta in C. rewrite C in *. simpl in H. destruct H as [<-|[]].
  repeat split.
Qed.

Lemma checkPayment_request_witness :
  In {| method := GET;
        url := js "/v3/ocpay/checkPayment/ OCPL-A1B2C3-D4E5 ";
        body := None |}
     (fst (checkPayment answersInsufficientBalance (js " OCPL-A1B2C3-D4E5 ")))
  /\ skipn 23 (js "/v3/ocpay/checkPayment/ OCPL-A1B2C3-D4E5 ")
     = js " OCPL-A1B2C3-D4E5 ".
Proof.
  assert (I : In {| method := GET;
                    url := js "/v3/ocpay/checkPayment/ OCPL-A1B2C3-D4E5 ";
                    body := None |}
                 (fst (checkPayment answersInsufficientBalance
                         (js " OCPL-A1B2C3-D4E5 "))))
    by (left; reflexivity).
  split; [exact I|].
  exact (proj2 (proj2 (proj2 (proj2 (proj2
           (checkPayment_request unit answersInsufficientBalance
              (js " OCPL-A1B2C3-D4E5 ") _ I)))))).
Defined.

(** X16. [checkPayment] returns a payload if and only if the reference is not
    blank and the transport fulfils the GET with a body that is there and
    whose [success] is not the boolean [false] (true, missing, or no
    boolean); the payload is what [data] of that body reads as.  A body that
    is [null] or [undefined] makes it throw the run time's [TypeError], a
    body whose [success] is [false] the logical-failure exception. *)
Theorem checkPayment_returns_iff :
  forall T (network : HttpRequest -> Settled T) (paymentRef : jsstring),
    let get := {| method := GET;
                  url := js "/v3/ocpay/checkPayment/" ++ paymentRef;
                  body := None |} in
    (forall payload,
        snd (checkPayment network paymentRef) = Return payload <->
        isBlank paymentRef = false
        /\ exists status b,
            network get = Fulfilled {| AxiosResponse.status := status;
                                       AxiosResponse.data := Some b |}
            /\ ApiResponse.success b <> Boolean false
            /\ payload = ApiResponse.data b)
    /\ (snd (checkPayment network paymentRef) = Throw TypeError <->
        isBlank paymentRef = false
        /\ exists status,
            network get = Fulfilled {| AxiosResponse.status := status;
                                       AxiosResponse.data := None |})
    /\ (forall e,
           snd (checkPayment network paymentRef) = Throw (OCPayError e) <->
           isBlank paymentRef = false
           /\ ((exists error, network get = Rejected error
                              /\ e = handleException error)
               \/ (exists status b,
                      network get
                      = Fulfilled {| AxiosResponse.status := status;
                                     AxiosResponse.data := Some b |}
                      /\ ApiResponse.success b = Boolean false
                      /\ e = logicalFailure b))).
Proof.
  intros T network paymentRef get.
  destruct (isBlank paymentRef) eqn:B.
  - rewrite (checkPayment_blank_settled network _ B). simpl.
    split; [intros payload; split;
            [discriminate | intros [H _]; discriminate H]|].
    split; [split; [discriminate | intros [H _]; discriminate H]|].
    intros e. split; [discriminate | intros [H _]; discriminate H].
  - pose proof (checkPayment_settled network paymentRef B) as C.
    cbv zeta in C. fold get in C. rewrite C. simpl. split.
    + intros payload. rewrite payload_returns_iff. split.
      * intros [r [R ->]]. apply settle_returns_iff in R as [status [N S]].
        split; [reflexivity|]. now exists status, r.
      * intros [_ [status [b [N [S ->]]]]]. exists b. split; [|reflexivity].
        apply settle_returns_iff. now exists status.
    + split.
      * rewrite payload_throws_iff, settle_TypeError_iff. tauto.
      * intros e. rewrite payload_throws_iff, settle_throws_iff. tauto.
Qed.

(** ** The client's configuration *)

Lemma str_eqb_refl (a : jsstring) : str_eqb a a = true.
Proof. now apply str_eqb_eq. Qed.

Lemma str_eqb_neq (a b : jsstring) : a <> b -> str_eqb a b = false.
Proof.
  intros N. destruct (str_eqb a b) eqn:E; [|reflexivity].
  apply str_eqb_eq in E. contradiction.
Qed.

Lemma Object_get_set_same (o : object) k v :
  Object_get (Object_set o k v) k = Some v.
Proof.
  induction o as [|[k0 v0] o IH]; simpl.
  - now rewrite str_eqb_refl.
  - destruct (str_eqb k0 k) eqn:E; simpl; rewrite E; [reflexivity | exact IH].
Qed.

Lemma Object_get_set_other (o : object) k v k' :
  k <> k' -> Object_get (Object_set o k v) k' = Object_get o k'.
Proof.
  intros N. induction o as [|[k0 v0] o IH]; simpl.
  - now rewrite (str_eqb_neq _ _ N).
  - destruct (str_eqb k0 k) eqn:E; simpl.
    + apply str_eqb_eq in E. subst k0. now rewrite (str_eqb_neq _ _ N).
    + now rewrite IH.
Qed.

Lemma Object_set_keys (o : object) k v x :
  In x (map fst (Object_set o k v)) <-> In x (map fst o) \/ x = k.
Proof.
  induction o as [|[k0 v0] o IH]; simpl.
  - split; [intros [<-|[]]; now right | intros [[]| ->]; now left].
  - destruct (str_eqb k0 k) eqn:E; simpl.
    + apply str_eqb_eq in E. subst k0. intuition congruence.
    + rewrite IH. tauto.
Qed.

Lemma Object_set_NoDup (o : object) k v :
  NoDup (map fst o) -> NoDup (map fst (Object_set o k v)).
Proof.
  induction o as [|[k0 v0] o IH]; simpl; intros N.
  - constructor; [intros [] | constructor].
  - inversion N as [|? ? NI N']; subst.
    destruct (str_eqb k0 k) eqn:E; simpl; constructor; try assumption.
    + rewrite Object_set_keys. intros [I| ->]; [contradiction|].
      now rewrite str_eqb_refl in E.
    + now apply IH.
Qed.

Lemma Object_get_None (o : object) k :
  Object_get o k = None <-> ~ In k (map fst o).
Proof.
  induction o as [|[k0 v0] o IH]; simpl; [tauto|].
  destruct (str_eqb k0 k) eqn:E.
  - apply str_eqb_eq in E. split; [discriminate | intros H; exfalso; tauto].
  - rewrite IH. split; [|tauto].
    intros H [->|I]; [now rewrite str_eqb_refl in E | contradiction].
Qed.

Lemma spread_NoDup (src o : object) :
  NoDup (map fst o) -> NoDup (map fst (spread o (Some src))).
Proof.
  simpl. revert o. induction src as [|[k v] s IH]; simpl; intros o N;
    [exact N|].
  apply IH. now apply Object_set_NoDup.
Qed.

Lemma spread_keeps (src o : object) k :
  ~ In k (map fst src) ->
  Object_get (spread o (Some src)) k = Object_get o k.
Proof.
  simpl. revert o. induction src as [|[k0 v0] s IH]; simpl; intros o N;
    [reflexivity|].
  rewrite IH by tauto. apply Object_get_set_other. tauto.
Qed.

Lemma spread_writes (src o : object) k v :
  NoDup (map fst src) -> In (k, v) src ->
  Object_get (spread o (Some src)) k = Some v.
Proof.
  revert o. induction src as [|[k0 v0] s IH]; simpl; intros o N I;
    [contradiction|].
  inversion N as [|? ? NI N']; subst. destruct I as [E|I].
  - inversion E; subst.
    pose proof (spread_keeps s (Object_set o k v) k NI) as K.
    simpl in K. rewrite K. apply Object_get_set_same.
  - now apply (IH (Object_set o k0 v0)).
Qed.

Lemma spread_keys (src o : object) k :
  In k (map fst (spread o (Some src))) <->
  In k (map fst o) \/ In k (map fst src).
Proof.
  simpl. revert o. induction src as [|[k0 v0] s IH]; simpl; intros o;
    [tauto|].
  rewrite IH, Object_set_keys. intuition congruence.
Qed.

Lemma spread_entries (o : object) (source : option object) :
  spread o source = spread o (Some (entries source)).
Proof. destruct source; reflexivity. Qed.

(** X17. The client is never configured with an empty base URL or with a timeout
    that is 0 or [NaN]: a base URL that is missing or empty becomes
    "https://api.oneclickdz.com", a timeout that is missing, 0 or [NaN]
    becomes 30000 (so the timeout cannot be switched off with 0); any other
    base URL or timeout is taken as given. *)
Theorem client_defaults :
  forall (accessToken : jsstring) (options : ClientOptions.t),
    let config := Client_new accessToken options in
    AxiosRequestConfig.baseURL config <> []
    /\ number_truthy (AxiosRequestConfig.timeout config) = true
    /\ (forall u, ClientOptions.baseURL options = Some u -> u <> [] ->
        AxiosRequestConfig.baseURL config = u)
    /\ (ClientOptions.baseURL options = None
        \/ ClientOptions.baseURL options = Some [] ->
        AxiosRequestConfig.baseURL config = js "https://api.oneclickdz.com")
    /\ (forall n, ClientOptions.timeout options = Some n ->
        number_truthy n = true -> AxiosRequestConfig.timeout config = n)
    /\ (ClientOptions.timeout options = None
        \/ (exists n, ClientOptions.timeout options = Some n
                      /\ number_truthy n = false) ->
        AxiosRequestConfig.timeout config = num 30000).
Proof.
  intros accessToken options config. subst config. simpl.
  split.
  { destruct (ClientOptions.baseURL options) as [[|c u]|]; discriminate. }
  split.
  { unfold or_number. destruct (ClientOptions.timeout options) as [n|];
      [|reflexivity].
    destruct (number_truthy n) eqn:E; [exact E | reflexivity]. }
  split; [intros u -> N; now apply or_else_present|].
  split; [intros E; now apply or_else_absent|].
  split.
  - intros n -> N. unfold or_number. now rewrite N.
  - intros [->|[n [-> N]]]; unfold or_number; [reflexivity | now rewrite N].
Qed.

(** X18. The headers of the client, for custom headers with each name once: every
    custom header is sent with its value, also under the names
    "X-Access-Token" and "Content-Type", which it then replaces; without a
    custom header of that name the access token and "application/json" are
    sent; no other header is set, and each name occurs once. *)
Theorem client_headers (accessToken : jsstring) (options : ClientOptions.t)
    (N : NoDup (map fst (entries (ClientOptions.headers options)))) :
  let custom := entries (ClientOptions.headers options) in
  let sent := AxiosRequestConfig.headers (Client_new accessToken options) in
  NoDup (map fst sent)
  /\ (forall k v, In (k, v) custom -> Object_get sent k = Some v)
  /\ (~ In (js "X-Access-Token") (map fst custom) ->
      Object_get sent (js "X-Access-Token") = Some accessToken)
  /\ (~ In (js "Content-Type") (map fst custom) ->
      Object_get sent (js "Content-Type") = Some (js "application/json"))
  /\ (forall k, In k (map fst sent) <->
      k = js "X-Access-Token" \/ k = js "Content-Type"
      \/ In k (map fst custom)).
Proof.
  intros custom sent. subst sent. unfold Client_new.
  cbn [AxiosRequestConfig.headers]. rewrite spread_entries. fold custom.
  set (base := Object_set (Object_set [] HEADER_ACCESS_TOKEN accessToken)
                          HEADER_CONTENT_TYPE CONTENT_TYPE_JSON).
  split.
  { apply spread_NoDup. subst base. do 2 apply Object_set_NoDup.
    constructor. }
  split; [intros k v I; now apply spread_writes|].
  split; [intros NI; now rewrite spread_keeps|].
  split; [intros NI; now rewrite spread_keeps|].
  intros k. rewrite spread_keys. subst base.
  change (map fst (Object_set (Object_set [] HEADER_ACCESS_TOKEN accessToken)
                              HEADER_CONTENT_TYPE CONTENT_TYPE_JSON))
    with [js "X-Access-Token"; js "Content-Type"].
  simpl. split.
  - intros [[<-|[<-|[]]]|I]; tauto.
  - intros [->|[->|I]]; tauto.
Qed.

Lemma client_headers_witness :
  NoDup (map fst (entries (ClientOptions.headers customOptions)))
  /\ Object_get
       (AxiosRequestConfig.headers (Client_new (js "my-token") customOptions))
       (js "X-Access-Token")
     = Some (js "other-token").
Proof.
  assert (N : NoDup (map fst (entries (ClientOptions.headers customOptions)))).
  { repeat constructor; simpl; intuition discriminate. }
  split; [exact N|].
  apply (client_headers (js "my-token") customOptions N).
  left. reflexivity.
Defined.

(** X7. The redirect error is raised if and only if every earlier rule holds and
    the redirect URL is a non-empty string that [isValidUrl] refuses; the
    URL parser is not asked about anything else. *)
Theorem redirectUrl_error_iff
    (URL_parses : jsstring -> bool) (request : CreateLinkRequest) :
  raises (validateCreateLinkRequest URL_parses request) MSG_REDIRECT_URL
  <->
  (exists pi, productInfo request = Some pi
              /\ validateProductInfo pi = Return tt)
  /\ feeModeOk request
  /\ (forall m, successMessage request = Some m -> length m <= 500)
  /\ (exists u, redirectUrl request = Some u /\ u <> []
                /\ isValidUrl URL_parses u = false).
Proof.
  split.
  - intros H. destruct (productInfo request) as [pi|] eqn:E;
      [|unfold validateCreateLinkRequest in H; rewrite E in H;
        wrong_message H].
    destruct (validateProductInfo pi) as [[]|e] eqn:V.
    + split; [now exists pi|].
      rewrite (validateCreateLinkRequest_after_productInfo _ _ _ E V) in H.
      destruct (feeModeRefused request) eqn:F; [wrong_message H|].
      split; [now apply feeModeOk_iff|].
      destruct (truthy (successMessage request) && _) eqn:S;
        [wrong_message H|].
      split.
      * intros m Em. destruct (Nat.le_gt_cases (length m) 500) as [L|L];
          [exact L|].
        assert (C : longerThan 500 (successMessage request)) by now exists m.
        apply longerThan_iff in C. congruence.
      * destruct (redirectUrl request) as [[|c u]|]; simpl in H;
          try discriminate H.
        exists (c :: u). split; [reflexivity|]. split; [discriminate|].
        destruct (isValidUrl URL_parses (c :: u)); [discriminate H|].
        reflexivity.
    + rewrite (validateCreateLinkRequest_productInfo_throws _ _ _ _ E V) in H.
      inversion H; subst e. exfalso.
      apply (productInfo_raises_own pi _ V). simpl; tauto.
  - intros [[pi [E V]] [F [S [u [Eu [N R]]]]]]. apply feeModeOk_iff in F.
    rewrite (validateCreateLinkRequest_after_productInfo _ _ _ E V), F.
    destruct (truthy (successMessage request) && _) eqn:C.
    { apply longerThan_iff in C as [m [Em L]]. specialize (S m Em). lia. }
    rewrite Eu. destruct u as [|c u]; [congruence|]. simpl. now rewrite R.
Qed.

(** Without a non-empty redirect URL the platform's URL parser has no part
    in validation. *)
Lemma validation_without_redirectUrl (U1 U2 : jsstring -> bool) request :
  redirectUrl request = None \/ redirectUrl request = Some [] ->
  validateCreateLinkRequest U1 request = validateCreateLinkRequest U2 request.
Proof.
  intros H. unfold validateCreateLinkRequest.
  destruct H as [-> | ->]; reflexivity.
Qed.

(** ** Runs of the client on bodies that are no envelope *)

Example body_without_flag_is_returned :
  checkPayment
    (fun _ => Fulfilled
       {| AxiosResponse.status := 200;
          AxiosResponse.data :=
            Some {| ApiResponse.success := NotBoolean;
                    ApiResponse.data := tt;
                    ApiResponse.message := None;
                    ApiResponse.meta := None |} |})
    (js "OCPL-A1B2C3-D4E5")
  = ([{| method := GET; url := js "/v3/ocpay/checkPayment/OCPL-A1B2C3-D4E5";
         body := None |}],
     Return tt).
Proof. reflexivity. Qed.

Example null_body_throws_TypeError :
  checkPayment
    (fun _ => @Fulfilled unit
       {| AxiosResponse.status := 200; AxiosResponse.data := None |})
    (js "OCPL-A1B2C3-D4E5")
  = ([{| method := GET; url := js "/v3/ocpay/checkPayment/OCPL-A1B2C3-D4E5";
         body := None |}],
     Throw TypeError).
Proof. reflexivity. Qed.
